(** * Cross detection on the 12 x 16 thermal mask: [is_cross] and [find_crosses]

    A shallow embedding of [cross.cpp] (MLX90641_basicRead example) and the
    properties its description states about it.

    Conventions of the embedding.
    - A C [int] is a [Z].  Every index the two functions compute lies in
      [-1 .. 16], so no machine-integer wrap-around can occur and none is
      modelled.
    - The parameter [int grid[ROWS][COLS]] is a list of rows.  A read outside
      the array is undefined behaviour in C; here it ends the run with the
      outcome [Undefined].
    - The three [for] loops run on fuel: a loop that is given too little fuel
      ends with [OutOfFuel], so that termination is a theorem about the code
      and not a by-product of the encoding.
    - Every run records a trace: one event per call of [is_cross], one per
      comparison of a grid cell with the constant 1, and one per comparison
      between indices or against a loop bound. *)

From Stdlib Require Import ZArith List Bool Lia.
Import ListNotations.
Local Open Scope Z_scope.

(** ** Constants ([#define]s of cross.cpp and cross.h) *)

Definition ROWS : Z := 12.
Definition COLS : Z := 16.
Definition ARM : Z := 1.

(** ** Data *)

(** [int grid[ROWS][COLS]]: a list of rows, each a list of cells. *)
Definition grid : Type := list (list Z).

(** The shape the C type promises: ROWS rows of COLS cells. *)
Definition well_formed (g : grid) : Prop :=
  length g = Z.to_nat ROWS /\ Forall (fun row => length row = Z.to_nat COLS) g.

Definition valid_row (r : Z) : Prop := 0 <= r < ROWS.
Definition valid_col (c : Z) : Prop := 0 <= c < COLS.
Definition in_bounds (r c : Z) : Prop := valid_row r /\ valid_col c.

(** [l[i]] for a C index [i]; [None] outside the array. *)
Definition index {A : Type} (l : list A) (i : Z) : option A :=
  if i <? 0 then None else nth_error l (Z.to_nat i).

(** [grid[r][c]]; [None] outside the array. *)
Definition lookup (g : grid) (r c : Z) : option Z :=
  match index g r with
  | Some row => index row c
  | None => None
  end.

(** A local [int] that may not have been given a value yet. *)
Inductive cint : Type :=
| Indet            (* declared without initialiser and never assigned *)
| Int (z : Z).

(** ** Runs: outcome, trace and the monad that threads them *)

Inductive event : Type :=
| Enter (r c : Z)       (* is_cross(grid, r, c) is entered *)
| Cmp_cell (r c : Z)    (* grid[r][c] != 1 is evaluated *)
| Cmp_index.            (* one of <, >=, <= between ints is evaluated *)

Inductive outcome (A : Type) : Type :=
| Done (a : A) (tr : list event)
| Undefined
| OutOfFuel.
Arguments Done {A} a tr.
Arguments Undefined {A}.
Arguments OutOfFuel {A}.

Definition ret {A : Type} (a : A) : outcome A := Done a [].

Definition bind {A B : Type} (m : outcome A) (k : A -> outcome B) : outcome B :=
  match m with
  | Done a tr =>
      match k a with
      | Done b tr' => Done b (tr ++ tr')
      | Undefined => Undefined
      | OutOfFuel => OutOfFuel
      end
  | Undefined => Undefined
  | OutOfFuel => OutOfFuel
  end.

Notation "x <- m ;; k" := (bind m (fun x => k))
  (at level 61, m at next level, right associativity).
Notation "m ;; k" := (bind m (fun _ => k))
  (at level 61, right associativity).

Definition emit (e : event) : outcome unit := Done tt [e].

(** The run ends normally with value [v]. *)
Definition returns {A : Type} (m : outcome A) (v : A) : Prop :=
  exists tr, m = Done v tr.

(** What a trace holds. *)
Definition is_cell (e : event) : bool :=
  match e with Cmp_cell _ _ => true | _ => false end.
Definition is_index (e : event) : bool :=
  match e with Cmp_index => true | _ => false end.
Definition cell_cmps (tr : list event) : nat := length (filter is_cell tr).
Definition index_cmps (tr : list event) : nat := length (filter is_index tr).
Definition calls (tr : list event) : list (Z * Z) :=
  flat_map (fun e => match e with Enter r c => [(r, c)] | _ => [] end) tr.

(** ** Primitive tests *)

Definition lt_idx (a b : Z) : outcome bool := Done (a <? b) [Cmp_index].
Definition le_idx (a b : Z) : outcome bool := Done (a <=? b) [Cmp_index].
Definition ge_idx (a b : Z) : outcome bool := Done (a >=? b) [Cmp_index].

(** [grid[r][c] != k]: reads the cell, then compares. *)
Definition cell_ne (g : grid) (r c k : Z) : outcome bool :=
  match lookup g r c with
  | Some v => Done (negb (v =? k)) [Cmp_cell r c]
  | None => Undefined
  end.

(** C's [a || b]: [b] is evaluated only when [a] is false. *)
Definition orelse (a b : outcome bool) : outcome bool :=
  x <- a ;; if x then ret true else b.

(** ** [is_cross] *)

(** The body of the loop over arm distances; [Some v] stands for [return v],
    [None] for reaching the end of the body.
<<
    if (row - i < 0     || grid[row - i][col] != 1) return 0;
    if (row + i >= ROWS || grid[row + i][col] != 1) return 0;
    if (col - i < 0     || grid[row][col - i] != 1) return 0;
    if (col + i >= COLS || grid[row][col + i] != 1) return 0;
>> *)
Definition arm_step (g : grid) (row col i : Z) : outcome (option Z) :=
  t1 <- orelse (lt_idx (row - i) 0) (cell_ne g (row - i) col 1) ;;
  if t1 then ret (Some 0) else
  t2 <- orelse (ge_idx (row + i) ROWS) (cell_ne g (row + i) col 1) ;;
  if t2 then ret (Some 0) else
  t3 <- orelse (lt_idx (col - i) 0) (cell_ne g row (col - i) 1) ;;
  if t3 then ret (Some 0) else
  t4 <- orelse (ge_idx (col + i) COLS) (cell_ne g row (col + i) 1) ;;
  if t4 then ret (Some 0) else
  ret None.

(** [for (...; i <= ARM; i++) { ... }  return 1;] entered with the current [i]. *)
Fixpoint arms (fuel : nat) (g : grid) (row col i : Z) : outcome Z :=
  match fuel with
  | O => OutOfFuel
  | S fuel' =>
      go <- le_idx i ARM ;;
      if go then
        x <- arm_step g row col i ;;
        match x with
        | Some v => ret v
        | None => arms fuel' g row col (i + 1)
        end
      else ret 1
  end.

(** [if (grid[row][col] != 1) return 0;  for (i = 1; ...) {...}  return 1;] *)
Definition is_cross (fuel : nat) (g : grid) (row col : Z) : outcome Z :=
  emit (Enter row col) ;;
  t <- cell_ne g row col 1 ;;
  if t then ret 0 else arms fuel g row col 1.

(** ** [find_crosses] *)

(** The locals that outlive the loops. *)
Record locals : Type := Locals {
  current_r : cint;
  current_c : Z;
  found : Z
}.

(** [int r, c, found = 0; int current_r, current_c = 0;] *)
Definition entry : locals :=
  {| current_r := Indet; current_c := 0; found := 0 |}.

Section ForLoop.
Context {S : Type}.
Variable limit : Z.
Variable body : Z -> S -> outcome S.

(** [for (...; i < limit; i++) body] entered with the current [i]. *)
Fixpoint for_lt (fuel : nat) (i : Z) (s : S) : outcome S :=
  match fuel with
  | O => OutOfFuel
  | Datatypes.S fuel' =>
      go <- lt_idx i limit ;;
      if go then s' <- body i s ;; for_lt fuel' (i + 1) s' else ret s
  end.
End ForLoop.

(** [if (is_cross(grid, r, c)) { current_r = r; current_c = c; found = 1; }] *)
Definition visit (fuel : nat) (g : grid) (r c : Z) (s : locals) : outcome locals :=
  v <- is_cross fuel g r c ;;
  if v =? 0 then ret s
  else ret {| current_r := Int r; current_c := c; found := 1 |}.

(** [for (c = 0; c < COLS; c++) ...] for one value of [r]. *)
Definition scan_row (fuel : nat) (g : grid) (r : Z) (s : locals) : outcome locals :=
  for_lt COLS (visit fuel g r) fuel 0 s.

(** [for (r = 0; r < ROWS; r++) ...], then the returned [vector<int>]:
    [current_r], [current_c] and [found] in push_back order. *)
Definition find_crosses (fuel : nat) (g : grid) : outcome (list cint) :=
  s <- for_lt ROWS (scan_row fuel g) fuel 0 entry ;;
  ret [current_r s; Int (current_c s); Int (found s)].

(** ** The description's notion of a cross *)

(** The four neighbours at arm distance [i]: each index is valid and each cell
    holds 1. *)
Definition arm_ok (g : grid) (row col i : Z) : Prop :=
  (valid_row (row - i) /\ lookup g (row - i) col = Some 1) /\
  (valid_row (row + i) /\ lookup g (row + i) col = Some 1) /\
  (valid_col (col - i) /\ lookup g row (col - i) = Some 1) /\
  (valid_col (col + i) /\ lookup g row (col + i) = Some 1).

(** Follows the description's contract for a cross centre: the centre holds 1
    and so do its neighbours at every distance from 1 to ARM, in all four
    directions. *)
Definition Cross (g : grid) (row col : Z) : Prop :=
  lookup g row col = Some 1 /\
  forall i, 1 <= i <= ARM -> arm_ok g row col i.

(** [p] comes no later than [q] in row-major order. *)
Definition row_major_le (p q : Z * Z) : Prop :=
  fst p < fst q \/ (fst p = fst q /\ snd p <= snd q).

(** [0; 1; ...; n-1]. *)
Definition upto (n : Z) : list Z := map Z.of_nat (seq 0 (Z.to_nat n)).

(** The cells of row [r], left to right. *)
Definition row_cells (r : Z) : list (Z * Z) := map (pair r) (upto COLS).

(** Every cell of the grid in row-major order. *)
Definition row_major : list (Z * Z) := flat_map row_cells (upto ROWS).

(** ** What the locals know while the scan is under way *)

(** Cell [(r', c')] is visited before the scan reaches [(r, c)]. *)
Definition before (r c r' c' : Z) : Prop :=
  in_bounds r' c' /\ (r' < r \/ (r' = r /\ c' < c)).

(** On reaching [(r, c)] the locals are still those of entry and no cell
    visited so far is a cross, or they hold the last cross visited so far. *)
Definition summarises (g : grid) (r c : Z) (s : locals) : Prop :=
  (s = entry /\ forall r' c', before r c r' c' -> ~ Cross g r' c') \/
  (exists r0 c0,
      s = {| current_r := Int r0; current_c := c0; found := 1 |} /\
      before r c r0 c0 /\ Cross g r0 c0 /\
      forall r' c', before r c r' c' -> Cross g r' c' ->
                    row_major_le (r', c') (r0, c0)).

(** ** Reads stay inside the grid *)

(** The cell comparisons of a trace all concern cells of the grid. *)
Definition reads_in_grid (tr : list event) : Prop :=
  forall r c, In (Cmp_cell r c) tr -> in_bounds r c.

(** A run that ends normally has compared only cells of the grid. *)
Definition safe {A : Type} (m : outcome A) : Prop :=
  forall a tr, m = Done a tr -> reads_in_grid tr.

(** ** Runs that agree *)

(** Whatever [m] returns normally, [m'] returns as well, with the same trace. *)
Definition agrees {A : Type} (m m' : outcome A) : Prop :=
  forall a tr, m = Done a tr -> m' = Done a tr.

(** ** Deciding crosses on a concrete grid by running the code *)

(** The answer of [is_cross] with just enough fuel, as a boolean. *)
Definition crossb (g : grid) (r c : Z) : bool :=
  match is_cross (S (Z.to_nat ARM)) g r c with
  | Done 1 _ => true
  | _ => false
  end.

(** The crosses of [g] are exactly the cells that [expected] marks. *)
Definition crosses_are (g : grid) (expected : Z -> Z -> bool) : bool :=
  forallb (fun p => Bool.eqb (crossb g (fst p) (snd p)) (expected (fst p) (snd p)))
          row_major.

(** ** Test grids *)

Definition blank_row : list Z := repeat 0 (Z.to_nat COLS).
Definition blank : grid := repeat blank_row (Z.to_nat ROWS).

(** [g] with [grid[r][c] = v]. *)
Definition set_cell (g : grid) (r c : nat) (v : Z) : grid :=
  map (fun '(i, row) =>
         if Nat.eqb i r
         then map (fun '(j, x) => if Nat.eqb j c then v else x)
                  (combine (seq 0 (length row)) row)
         else row)
      (combine (seq 0 (length g)) g).

(** All zeros except [grid[5][8]] and its four neighbours. *)
Definition plus_5_8 : grid :=
  set_cell (set_cell (set_cell (set_cell (set_cell blank 5 8 1) 4 8 1) 6 8 1) 5 7 1) 5 9 1.

(** All zeros except [grid[0][0]]. *)
Definition corner : grid := set_cell blank 0 0 1.

(** Every cell is 1. *)
Definition full : grid := repeat (repeat 1 (Z.to_nat COLS)) (Z.to_nat ROWS).

(** The grid that is all 1 except for a 2 at (5, 8). *)
Definition full_but_2 : grid := set_cell full 5 8 2.

(** Two crosses, centred at (2, 12) and (8, 3): the later one in row-major
    order has the smaller column. *)
Definition two_crosses : grid :=
  [ [0;0;0;0;0;0;0;0;0;0;0;0;0;0;0;0];
    [0;0;0;0;0;0;0;0;0;0;0;0;1;0;0;0];
    [0;0;0;0;0;0;0;0;0;0;0;1;1;1;0;0];
    [0;0;0;0;0;0;0;0;0;0;0;0;1;0;0;0];
    [0;0;0;0;0;0;0;0;0;0;0;0;0;0;0;0];
    [0;0;0;0;0;0;0;0;0;0;0;0;0;0;0;0];
    [0;0;0;0;0;0;0;0;0;0;0;0;0;0;0;0];
    [0;0;0;1;0;0;0;0;0;0;0;0;0;0;0;0];
    [0;0;1;1;1;0;0;0;0;0;0;0;0;0;0;0];
    [0;0;0;1;0;0;0;0;0;0;0;0;0;0;0;0];
    [0;0;0;0;0;0;0;0;0;0;0;0;0;0;0;0];
    [0;0;0;0;0;0;0;0;0;0;0;0;0;0;0;0] ].

(** ** Vocabulary for the further properties *)

(** The cells a run compared with 1, in the order it compared them. *)
Definition cells (tr : list event) : list (Z * Z) :=
  flat_map (fun e => match e with Cmp_cell r c => [(r, c)] | _ => [] end) tr.

(** [start; start + 1; ...], [n] values. *)
Fixpoint zseq (start : Z) (n : nat) : list Z :=
  match n with
  | O => []
  | S n' => start :: zseq (start + 1) n'
  end.

(** The neighbours at arm distance [i] in the order the loop body tests them:
    up, down, left, right. *)
Definition arm_cells (row col i : Z) : list (Z * Z) :=
  [(row - i, col); (row + i, col); (row, col - i); (row, col + i)].

(** The centre, then the neighbours at distance 1, 2, ..., ARM. *)
Definition probe_order (row col : Z) : list (Z * Z) :=
  (row, col) :: flat_map (arm_cells row col) (zseq 1 (Z.to_nat ARM)).

(** Every cell that is not 1 replaced by 0. *)
Definition binarise (g : grid) : grid :=
  map (map (fun v => if v =? 1 then 1 else 0)) g.

(** The grid upside down, and the grid mirrored left to right. *)
Definition flip_rows (g : grid) : grid := rev g.
Definition flip_cols (g : grid) : grid := map (@rev Z) g.

(** Every cell that holds 1 in [g] holds 1 in [g']. *)
Definition ones_within (g g' : grid) : Prop :=
  forall r c, lookup g r c = Some 1 -> lookup g' r c = Some 1.

(** No cell of the grid holds 1. *)
Definition no_ones (g : grid) : Prop :=
  forall r c, lookup g r c <> Some 1.

(** How many cells of the grid hold 1. *)
Definition is_one (g : grid) (p : Z * Z) : bool :=
  match lookup g (fst p) (snd p) with
  | Some 1 => true
  | _ => false
  end.
Definition count_ones (g : grid) : nat := length (filter (is_one g) row_major).

(** The plus at (5, 8) drawn on a grid whose other cells all hold 7. *)
Definition plus_5_8_on_sevens : grid :=
  set_cell (set_cell (set_cell (set_cell (set_cell
    (repeat (repeat 7 (Z.to_nat COLS)) (Z.to_nat ROWS)) 5 8 1) 4 8 1) 6 8 1) 5 7 1) 5 9 1.

(** [plus_5_8] with a second plus added at (8, 3). *)
Definition plus_5_8_and_8_3 : grid :=
  Eval vm_compute in
    set_cell (set_cell (set_cell (set_cell (set_cell
      plus_5_8 8 3 1) 7 3 1) 9 3 1) 8 2 1) 8 4 1.

(** The four arms of the plus at (5, 8) without its centre: four ones. *)
Definition plus_without_centre : grid :=
  Eval vm_compute in set_cell plus_5_8 5 8 0.

(** Every cell holds 7: nothing is 0, nothing is 1. *)
Definition sevens : grid := repeat (repeat 7 (Z.to_nat COLS)) (Z.to_nat ROWS).

(** * Proofs *)

Ltac consts :=
  unfold in_bounds, valid_row, valid_col, ROWS, COLS, ARM in *.

(** ** Traces *)

Lemma cell_cmps_app (a b : list event) :
  cell_cmps (a ++ b) = (cell_cmps a + cell_cmps b)%nat.
Proof. unfold cell_cmps. now rewrite filter_app, length_app. Qed.

Lemma index_cmps_app (a b : list event) :
  index_cmps (a ++ b) = (index_cmps a + index_cmps b)%nat.
Proof. unfold index_cmps. now rewrite filter_app, length_app. Qed.

Lemma calls_app (a b : list event) : calls (a ++ b) = calls a ++ calls b.
Proof. unfold calls. apply flat_map_app. Qed.

Lemma cell_cmps_one (e : event) :
  cell_cmps [e] = if is_cell e then 1%nat else 0%nat.
Proof. unfold cell_cmps. cbn. now destruct (is_cell e). Qed.

Lemma index_cmps_one (e : event) :
  index_cmps [e] = if is_index e then 1%nat else 0%nat.
Proof. unfold index_cmps. cbn. now destruct (is_index e). Qed.

Lemma cell_cmps_nil : cell_cmps [] = 0%nat.
Proof. reflexivity. Qed.

Lemma index_cmps_nil : index_cmps [] = 0%nat.
Proof. reflexivity. Qed.

Lemma calls_nil : calls [] = [].
Proof. reflexivity. Qed.

Lemma calls_cmp_index : calls [Cmp_index] = [].
Proof. reflexivity. Qed.

Lemma calls_cmp_cell (r c : Z) : calls [Cmp_cell r c] = [].
Proof. reflexivity. Qed.

Lemma calls_enter (r c : Z) : calls [Enter r c] = [(r, c)].
Proof. reflexivity. Qed.

Create Rewrite HintDb trace.
#[local] Hint Rewrite cell_cmps_app index_cmps_app calls_app
  cell_cmps_one index_cmps_one cell_cmps_nil index_cmps_nil
  calls_nil calls_cmp_index calls_cmp_cell calls_enter app_nil_r : trace.

(** Normalises the trace measures of a goal built from known pieces. *)
Ltac traces :=
  autorewrite with trace; cbn [is_cell is_index app].

(** ** The monad *)

Lemma bind_done {A B : Type} (m : outcome A) (k : A -> outcome B) a tr b tr' :
  m = Done a tr -> k a = Done b tr' -> bind m k = Done b (tr ++ tr').
Proof. intros -> Hk. cbn. now rewrite Hk. Qed.

Lemma bind_inv {A B : Type} (m : outcome A) (k : A -> outcome B) b tr :
  bind m k = Done b tr ->
  exists a tr1 tr2, m = Done a tr1 /\ k a = Done b tr2 /\ tr = tr1 ++ tr2.
Proof.
  destruct m as [a tr1| |]; cbn; try discriminate.
  destruct (k a) as [b' tr2| |] eqn:Hk; try discriminate.
  intros [= <- <-]. now exists a, tr1, tr2.
Qed.

Lemma returns_inj {A : Type} (m : outcome A) (v w : A) :
  returns m v -> returns m w -> v = w.
Proof. intros [tr ->] [tr' [= ->]]. reflexivity. Qed.

(** ** Reading the grid *)

Lemma index_some {A : Type} (l : list A) (i : Z) :
  0 <= i < Z.of_nat (length l) -> exists x, index l i = Some x /\ In x l.
Proof.
  intros Hi. unfold index.
  destruct (i <? 0) eqn:E; [apply Z.ltb_lt in E; lia|].
  destruct (nth_error l (Z.to_nat i)) as [x|] eqn:Hn.
  - exists x. split; [reflexivity|]. eapply nth_error_In; eauto.
  - apply nth_error_None in Hn. lia.
Qed.

Lemma lookup_in_bounds (g : grid) (r c : Z) :
  well_formed g -> in_bounds r c -> exists v, lookup g r c = Some v.
Proof.
  intros [Hlen Hrows] [Hr Hc]. unfold lookup.
  destruct (index_some g r) as (row & -> & Hin).
  { rewrite Hlen. consts. lia. }
  rewrite Forall_forall in Hrows. specialize (Hrows _ Hin).
  destruct (index_some row c) as (v & -> & _).
  { rewrite Hrows. consts. lia. }
  now exists v.
Qed.

(** ** One guarded neighbour test: [off || grid[r][c] != 1] *)

Lemma guarded_test (g : grid) (off : bool) (r c : Z) :
  well_formed g -> (off = false -> in_bounds r c) ->
  exists t tr,
    orelse (Done off [Cmp_index]) (cell_ne g r c 1) = Done t tr /\
    (t = false <-> off = false /\ lookup g r c = Some 1) /\
    calls tr = [] /\ (cell_cmps tr <= 1)%nat /\ index_cmps tr = 1%nat.
Proof.
  intros Hg Hin. unfold orelse, cell_ne. destruct off; cbn.
  - exists true, [Cmp_index]. cbn. repeat split; auto; try discriminate.
    now intros [? _].
  - destruct (lookup_in_bounds g r c Hg (Hin eq_refl)) as [v Hv]. rewrite Hv.
    exists (negb (v =? 1)), [Cmp_index; Cmp_cell r c]. cbn. repeat split; auto.
    + destruct (Z.eqb_spec v 1); [now subst|discriminate].
    + intros [_ [= ->]]. reflexivity.
Qed.

(** ** [is_cross] *)

Ltac run_test H t tr E Ht Hc Hn Hi :=
  destruct H as (t & tr & E & Ht & Hc & Hn & Hi);
  [ assumption | intros ?; consts; lia | ].

(** One pass through the loop body decides [arm_ok] for its distance, reading
    only cells of the grid. *)
Lemma arm_step_run (g : grid) (row col i : Z) :
  well_formed g -> in_bounds row col -> 1 <= i ->
  exists x tr,
    arm_step g row col i = Done x tr /\
    (x = None /\ arm_ok g row col i \/ x = Some 0 /\ ~ arm_ok g row col i) /\
    calls tr = [] /\ (cell_cmps tr <= 4)%nat /\ (index_cmps tr <= 4)%nat.
Proof.
  intros Hg Hin Hi. unfold arm_step, lt_idx, ge_idx.
  run_test (guarded_test g (row - i <? 0) (row - i) col) t1 tr1 E1 H1 C1 N1 I1.
  rewrite E1; cbn [bind].
  destruct t1.
  { exists (Some 0), (tr1 ++ []). cbn [ret]. split; [reflexivity|].
    traces. rewrite C1. traces. repeat split; try lia.
    right. split; [reflexivity|]. intros (A & _). 
    assert (true = false) by (apply H1; split; [|apply A]; consts; lia).
    discriminate. }
  destruct H1 as [H1 _]. specialize (H1 eq_refl).
  run_test (guarded_test g (row + i >=? ROWS) (row + i) col) t2 tr2 E2 H2 C2 N2 I2.
  rewrite E2; cbn [bind].
  destruct t2.
  { exists (Some 0), (tr1 ++ tr2 ++ []). cbn [ret]. split; [reflexivity|].
    traces. rewrite C1, C2. traces. repeat split; try lia.
    right. split; [reflexivity|]. intros (_ & A & _). 
    assert (true = false) by (apply H2; split; [|apply A]; consts; lia).
    discriminate. }
  destruct H2 as [H2 _]. specialize (H2 eq_refl).
  run_test (guarded_test g (col - i <? 0) row (col - i)) t3 tr3 E3 H3 C3 N3 I3.
  rewrite E3; cbn [bind].
  destruct t3.
  { exists (Some 0), (tr1 ++ tr2 ++ tr3 ++ []). cbn [ret]. split; [reflexivity|].
    traces. rewrite C1, C2, C3. traces. repeat split; try lia.
    right. split; [reflexivity|]. intros (_ & _ & A & _). 
    assert (true = false) by (apply H3; split; [|apply A]; consts; lia).
    discriminate. }
  destruct H3 as [H3 _]. specialize (H3 eq_refl).
  run_test (guarded_test g (col + i >=? COLS) row (col + i)) t4 tr4 E4 H4 C4 N4 I4.
  rewrite E4; cbn [bind].
  destruct t4.
  { exists (Some 0), (tr1 ++ tr2 ++ tr3 ++ tr4 ++ []). cbn [ret].
    split; [reflexivity|].
    traces. rewrite C1, C2, C3, C4. traces. repeat split; try lia.
    right. split; [reflexivity|]. intros (_ & _ & _ & A). 
    assert (true = false) by (apply H4; split; [|apply A]; consts; lia).
    discriminate. }
  destruct H4 as [H4 _]. specialize (H4 eq_refl).
  exists None, (tr1 ++ tr2 ++ tr3 ++ tr4 ++ []). cbn [ret]. split; [reflexivity|].
  traces. rewrite C1, C2, C3, C4. traces. repeat split; try lia.
  left. split; [reflexivity|].
  destruct H1 as [B1 L1], H2 as [B2 L2], H3 as [B3 L3], H4 as [B4 L4].
  unfold arm_ok. repeat split; try assumption; consts; lia.
Qed.

(** The loop over arm distances, entered at distance [i] with enough fuel for
    the tests that remain, returns 1 when every remaining distance is fine and 0
    at the first one that is not. *)
Lemma arms_run (g : grid) (row col : Z) :
  well_formed g -> in_bounds row col ->
  forall (fuel : nat) (i : Z),
    1 <= i <= ARM + 1 -> (Z.to_nat (ARM + 1 - i) < fuel)%nat ->
    exists v tr,
      arms fuel g row col i = Done v tr /\
      (v = 1 /\ (forall j, i <= j <= ARM -> arm_ok g row col j) \/
       v = 0 /\ exists j, i <= j <= ARM /\ ~ arm_ok g row col j) /\
      calls tr = [] /\
      (cell_cmps tr <= 4 * Z.to_nat (ARM + 1 - i))%nat /\
      (index_cmps tr <= 5 * Z.to_nat (ARM + 1 - i) + 1)%nat.
Proof.
  intros Hg Hin fuel.
  induction fuel as [|fuel IH]; intros i Hi Hfuel; [lia|].
  cbn [arms]. unfold le_idx. cbn [bind].
  destruct (Z.leb_spec i ARM) as [Hle|Hgt].
  - destruct (arm_step_run g row col i Hg Hin) as (x & tr1 & E1 & Hx & C1 & N1 & I1);
      [lia|].
    rewrite E1. cbn [bind].
    destruct Hx as [[-> Hok]|[-> Hbad]].
    + destruct (IH (i + 1)) as (v & tr2 & E2 & Hv & C2 & N2 & I2); [lia|lia|].
      rewrite E2. exists v, ([Cmp_index] ++ tr1 ++ tr2). split; [reflexivity|].
      traces. rewrite C1, C2. traces.
      replace (Z.to_nat (ARM + 1 - i)) with (S (Z.to_nat (ARM + 1 - (i + 1))))
        by lia.
      repeat split; try lia.
      destruct Hv as [[-> Hall]|[-> (j & Hj & Hbad)]].
      * left. split; [reflexivity|]. intros j Hj.
        destruct (Z.eq_dec j i) as [->|Hne]; [assumption|apply Hall; lia].
      * right. split; [reflexivity|]. exists j. split; [lia|assumption].
    + exists 0, ([Cmp_index] ++ tr1 ++ []). cbn [ret]. split; [reflexivity|].
      traces. rewrite C1. traces. repeat split; try lia.
      right. split; [reflexivity|]. exists i. split; [lia|assumption].
  - exists 1, ([Cmp_index] ++ []). cbn [ret]. split; [reflexivity|].
    traces. repeat split; try lia. left. split; [reflexivity|]. intros j Hj. lia.
Qed.

(** What a call of [is_cross] at an in-bounds centre does: it returns, reads
    only cells of the grid, answers 1 exactly on a cross and 0 otherwise, and
    compares at most [1 + 4 * ARM] cells and [5 * ARM + 1] indices. *)
Lemma is_cross_run (fuel : nat) (g : grid) (row col : Z) :
  well_formed g -> in_bounds row col -> (Z.to_nat ARM < fuel)%nat ->
  exists v tr,
    is_cross fuel g row col = Done v (Enter row col :: tr) /\
    (v = 1 /\ Cross g row col \/ v = 0 /\ ~ Cross g row col) /\
    calls tr = [] /\
    (1 <= cell_cmps tr <= 1 + 4 * Z.to_nat ARM)%nat /\
    (index_cmps tr <= 5 * Z.to_nat ARM + 1)%nat.
Proof.
  intros Hg Hin Hfuel. unfold is_cross, emit, cell_ne. cbn [bind].
  destruct (lookup_in_bounds g row col Hg Hin) as [c Hc]. rewrite Hc.
  destruct (Z.eqb_spec c 1) as [->|Hne]; cbn [negb].
  - destruct (arms_run g row col Hg Hin fuel 1) as (v & tr & E & Hv & C & N & I).
    { consts; lia. } { consts; lia. }
    rewrite E. exists v, ([Cmp_cell row col] ++ tr). split; [reflexivity|].
    traces. rewrite C. traces.
    replace (Z.to_nat (ARM + 1 - 1)) with (Z.to_nat ARM) in * by (f_equal; lia).
    repeat split; try lia.
    destruct Hv as [[-> Hall]|[-> (j & Hj & Hbad)]].
    + left. split; [reflexivity|]. split; assumption.
    + right. split; [reflexivity|]. intros [_ Hall]. apply Hbad, Hall, Hj.
  - exists 0, ([Cmp_cell row col] ++ []). cbn [ret]. split; [reflexivity|].
    traces. repeat split; try lia.
    right. split; [reflexivity|]. intros [Hone _]. congruence.
Qed.

(** ** The [for] loops of [find_crosses] *)

Section ForRule.
Context {S : Type}.
Variable limit : Z.
Variable body : Z -> S -> outcome S.

(** [P i s tr]: the loop reaches the test of iteration [i] with locals [s],
    having produced the trace [tr] since it was entered. *)
Variable P : Z -> S -> list event -> Prop.

Hypothesis body_keeps :
  forall i s tr, 0 <= i < limit -> P i s tr ->
    exists s' tr', body i s = Done s' tr' /\
                   P (i + 1) s' (tr ++ [Cmp_index] ++ tr').

(** With more fuel than iterations left the loop ends normally, its last
    event being the test that fails. *)
Lemma for_lt_rule (fuel : nat) :
  forall i s tr,
    0 <= i <= limit -> (Z.to_nat (limit - i) < fuel)%nat -> P i s tr ->
    exists s' tr',
      for_lt limit body fuel i s = Done s' (tr' ++ [Cmp_index]) /\
      P limit s' (tr ++ tr').
Proof.
  induction fuel as [|fuel IH]; intros i s tr Hi Hfuel HP; [lia|].
  cbn [for_lt]. unfold lt_idx. cbn [bind].
  destruct (Z.ltb_spec i limit) as [Hlt|Hge].
  - destruct (body_keeps i s tr) as (s1 & tr1 & E1 & HP1); [lia|assumption|].
    rewrite E1. cbn [bind].
    destruct (IH (i + 1) s1 _ ltac:(lia) ltac:(lia) HP1) as (s2 & tr2 & E2 & HP2).
    rewrite E2. exists s2, ([Cmp_index] ++ tr1 ++ tr2). split.
    + f_equal. cbn [app]. now rewrite <- app_assoc.
    + rewrite <- !app_assoc in HP2. exact HP2.
  - assert (i = limit) as -> by lia.
    exists s, []. split; [reflexivity|]. now rewrite app_nil_r.
Qed.
End ForRule.

(** ** Row-major enumeration *)

Lemma upto_succ (n : Z) : 0 <= n -> upto (n + 1) = upto n ++ [n].
Proof.
  intros Hn. unfold upto.
  replace (Z.to_nat (n + 1)) with (S (Z.to_nat n)) by lia.
  rewrite seq_S, map_app. cbn [map Nat.add]. now rewrite Z2Nat.id.
Qed.

Lemma in_upto (n i : Z) : In i (upto n) <-> 0 <= i < n.
Proof.
  unfold upto. rewrite in_map_iff. split.
  - intros (k & <- & Hk). apply in_seq in Hk. lia.
  - intros Hi. exists (Z.to_nat i). split; [lia|]. apply in_seq. lia.
Qed.

Lemma in_row_major (r c : Z) : In (r, c) row_major <-> in_bounds r c.
Proof.
  unfold row_major, row_cells, in_bounds, valid_row, valid_col.
  rewrite in_flat_map. split.
  - intros (r' & Hr & Hc). apply in_map_iff in Hc as (c' & [= <- <-] & Hc).
    apply in_upto in Hr, Hc. now split.
  - intros [Hr Hc]. exists r. split; [now apply in_upto|].
    apply in_map_iff. exists c. split; [reflexivity|now apply in_upto].
Qed.

(** ** The scan invariant *)

Lemma summarises_entry (g : grid) : summarises g 0 0 entry.
Proof.
  left. split; [reflexivity|]. intros r' c' [Hin Hb]. consts. lia.
Qed.

Lemma summarises_next_row (g : grid) (r : Z) (s : locals) :
  summarises g r COLS s -> summarises g (r + 1) 0 s.
Proof.
  assert (Hb : forall r' c', before (r + 1) 0 r' c' <-> before r COLS r' c').
  { intros r' c'. unfold before. consts. lia. }
  intros [[-> Hno]|(r0 & c0 & -> & H0 & Hc & Hlast)].
  - left. split; [reflexivity|]. intros r' c' H. apply Hno, Hb, H.
  - right. exists r0, c0. split; [reflexivity|]. split; [now apply Hb|].
    split; [assumption|]. intros r' c' H. apply Hlast, Hb, H.
Qed.

Lemma summarises_hit (g : grid) (r c : Z) :
  in_bounds r c -> Cross g r c ->
  summarises g r (c + 1) {| current_r := Int r; current_c := c; found := 1 |}.
Proof.
  intros Hin Hc. right. exists r, c. split; [reflexivity|].
  split; [split; [assumption|lia]|]. split; [assumption|].
  intros r' c' [_ Hb] _. unfold row_major_le. cbn [fst snd]. lia.
Qed.

Lemma summarises_miss (g : grid) (r c : Z) (s : locals) :
  ~ Cross g r c -> summarises g r c s -> summarises g r (c + 1) s.
Proof.
  intros Hn.
  assert (Hb : forall r' c', before r (c + 1) r' c' ->
                             before r c r' c' \/ (r' = r /\ c' = c)).
  { intros r' c'. unfold before. consts. lia. }
  intros [[-> Hno]|(r0 & c0 & -> & H0 & Hc & Hlast)].
  - left. split; [reflexivity|]. intros r' c' H.
    destruct (Hb _ _ H) as [H'|[-> ->]]; [now apply Hno|assumption].
  - right. exists r0, c0. split; [reflexivity|].
    split; [unfold before in *; consts; lia|]. split; [assumption|].
    intros r' c' H Hx.
    destruct (Hb _ _ H) as [H'|[-> ->]]; [now apply Hlast|contradiction].
Qed.

(** ** [find_crosses] *)

Lemma visit_run (fuel : nat) (g : grid) (r c : Z) (s : locals) :
  well_formed g -> in_bounds r c -> (Z.to_nat ARM < fuel)%nat ->
  summarises g r c s ->
  exists s' tr,
    visit fuel g r c s = Done s' ([Enter r c] ++ tr) /\
    summarises g r (c + 1) s' /\
    calls tr = [] /\
    (cell_cmps tr <= 1 + 4 * Z.to_nat ARM)%nat /\
    (index_cmps tr <= 5 * Z.to_nat ARM + 1)%nat.
Proof.
  intros Hg Hin Hfuel Hs. unfold visit.
  destruct (is_cross_run fuel g r c Hg Hin Hfuel) as (v & tr & E & Hv & C & N & I).
  rewrite E. cbn [bind].
  destruct Hv as [[-> Hc]|[-> Hn]]; cbn [Z.eqb ret].
  - eexists _, (tr ++ []). split; [reflexivity|]. traces.
    repeat split; try assumption; try lia. now apply summarises_hit.
  - eexists _, (tr ++ []). split; [reflexivity|]. traces.
    repeat split; try assumption; try lia. now apply summarises_miss.
Qed.

(** One pass of the inner loop visits the cells of row [r] from left to right
    and leaves the locals summarising everything up to the end of the row. *)
Lemma scan_row_run (fuel : nat) (g : grid) (r : Z) (s : locals) :
  well_formed g -> valid_row r -> (Z.to_nat COLS < fuel)%nat ->
  summarises g r 0 s ->
  exists s' tr,
    scan_row fuel g r s = Done s' tr /\
    summarises g (r + 1) 0 s' /\
    calls tr = row_cells r /\
    Z.of_nat (cell_cmps tr) <= (1 + 4 * ARM) * COLS /\
    Z.of_nat (index_cmps tr) <= (5 * ARM + 2) * COLS + 1.
Proof.
  intros Hg Hr Hfuel Hs. unfold scan_row.
  pose (P := fun (c : Z) (s : locals) (tr : list event) =>
               summarises g r c s /\
               calls tr = map (pair r) (upto c) /\
               Z.of_nat (cell_cmps tr) <= (1 + 4 * ARM) * c /\
               Z.of_nat (index_cmps tr) <= (5 * ARM + 2) * c).
  destruct (for_lt_rule COLS (visit fuel g r) P) with
    (fuel := fuel) (i := 0) (s := s) (tr := @nil event)
    as (s' & tr & E & Hs' & C & N & I).
  - intros c s1 tr1 Hc (Hs1 & C1 & N1 & I1).
    destruct (visit_run fuel g r c s1 Hg) as (s2 & tr2 & E2 & Hs2 & C2 & N2 & I2);
      [split; assumption|consts; lia|assumption|].
    exists s2, ([Enter r c] ++ tr2). split; [assumption|].
    unfold P. traces. rewrite C1, C2.
    repeat split; [assumption| |consts; lia|consts; lia].
    rewrite upto_succ, map_app by lia. reflexivity.
  - consts; lia.
  - consts; lia.
  - unfold P. repeat split; [assumption|reflexivity|..]; cbn; consts; lia.
  - exists s', (tr ++ [Cmp_index]). cbn [app] in *. split; [assumption|].
    traces. rewrite C. repeat split; try lia.
    now apply summarises_next_row.
Qed.

(** The whole scan: it ends normally on every well-formed grid, visits every
    cell once in row-major order, and its locals summarise the whole grid. *)
Lemma find_crosses_run (fuel : nat) (g : grid) :
  well_formed g -> (Z.to_nat COLS < fuel)%nat ->
  exists s tr,
    find_crosses fuel g = Done [current_r s; Int (current_c s); Int (found s)] tr /\
    summarises g ROWS 0 s /\
    calls tr = row_major /\
    Z.of_nat (cell_cmps tr) <= (1 + 4 * ARM) * COLS * ROWS /\
    Z.of_nat (index_cmps tr) <= ((5 * ARM + 2) * COLS + 2) * ROWS + 1.
Proof.
  intros Hg Hfuel. unfold find_crosses.
  pose (P := fun (r : Z) (s : locals) (tr : list event) =>
               summarises g r 0 s /\
               calls tr = flat_map row_cells (upto r) /\
               Z.of_nat (cell_cmps tr) <= (1 + 4 * ARM) * COLS * r /\
               Z.of_nat (index_cmps tr) <= ((5 * ARM + 2) * COLS + 2) * r).
  destruct (for_lt_rule ROWS (scan_row fuel g) P) with
    (fuel := fuel) (i := 0) (s := entry) (tr := @nil event)
    as (s' & tr & E & Hs' & C & N & I).
  - intros r s1 tr1 Hr (Hs1 & C1 & N1 & I1).
    destruct (scan_row_run fuel g r s1 Hg Hr Hfuel Hs1)
      as (s2 & tr2 & E2 & Hs2 & C2 & N2 & I2).
    exists s2, tr2. split; [assumption|].
    unfold P. traces. rewrite C1, C2.
    repeat split; [assumption| |consts; lia|consts; lia].
    rewrite upto_succ, flat_map_app by lia. cbn [flat_map].
    now rewrite app_nil_r.
  - consts; lia.
  - consts; lia.
  - unfold P. repeat split; [apply summarises_entry|reflexivity|..]; cbn; consts; lia.
  - rewrite E. cbn [bind ret]. exists s', ((tr ++ [Cmp_index]) ++ []).
    cbn [app] in C, N, I. split; [reflexivity|].
    traces. rewrite C. repeat split; try lia.
    assumption.
Qed.

(** ** Every cell compared lies inside the grid *)

Lemma lookup_some_in_bounds (g : grid) (r c v : Z) :
  well_formed g -> lookup g r c = Some v -> in_bounds r c.
Proof.
  intros [Hlen Hrows]. unfold lookup, index.
  destruct (Z.ltb_spec r 0) as [|Hr]; [discriminate|].
  destruct (nth_error g (Z.to_nat r)) as [row|] eqn:Hrow; [|discriminate].
  destruct (Z.ltb_spec c 0) as [|Hc]; [discriminate|]. intros Hv.
  assert (Hlt : (Z.to_nat r < length g)%nat)
    by (apply nth_error_Some; congruence).
  assert (Hlt' : (Z.to_nat c < length row)%nat)
    by (apply nth_error_Some; congruence).
  rewrite Forall_forall in Hrows.
  rewrite (Hrows row) in Hlt' by (eapply nth_error_In; eauto).
  consts. lia.
Qed.

Section Safe.
Variable g : grid.
Hypothesis g_ok : well_formed g.

Lemma safe_ret {A : Type} (a : A) : safe (ret a).
Proof. intros ? ? [= <- <-] r c []. Qed.

Lemma safe_bind {A B : Type} (m : outcome A) (k : A -> outcome B) :
  safe m -> (forall a, safe (k a)) -> safe (bind m k).
Proof.
  intros Hm Hk b tr H.
  apply bind_inv in H as (a & tr1 & tr2 & E1 & E2 & ->).
  intros r c Hin. apply in_app_or in Hin as [Hin|Hin].
  - eapply Hm; eauto.
  - eapply Hk; eauto.
Qed.

Lemma safe_if {A : Type} (b : bool) (x y : outcome A) :
  safe x -> safe y -> safe (if b then x else y).
Proof. now destruct b. Qed.

Lemma safe_index_test (b : bool) : safe (Done b [Cmp_index]).
Proof. intros ? ? [= <- <-] r c [|[]]; discriminate. Qed.

Lemma safe_emit_enter (r c : Z) : safe (emit (Enter r c)).
Proof. intros ? ? [= <- <-] r' c' [|[]]; discriminate. Qed.

Lemma safe_cell_ne (r c k : Z) : safe (cell_ne g r c k).
Proof.
  unfold cell_ne. destruct (lookup g r c) as [v|] eqn:Hv; [|discriminate].
  intros ? ? [= <- <-] r' c' [[= <- <-]|[]].
  eapply lookup_some_in_bounds; eauto.
Qed.

Lemma safe_orelse (a b : outcome bool) : safe a -> safe b -> safe (orelse a b).
Proof.
  intros Ha Hb. apply safe_bind; [assumption|].
  intros x. apply safe_if; [apply safe_ret|assumption].
Qed.

Ltac safe_step :=
  first [ apply safe_ret | apply safe_cell_ne | apply safe_index_test
        | apply safe_emit_enter | apply safe_orelse
        | apply safe_bind; [|intros ?] | apply safe_if ].

Lemma safe_arm_step (row col i : Z) : safe (arm_step g row col i).
Proof. unfold arm_step, lt_idx, ge_idx. repeat safe_step. Qed.

Lemma safe_arms (fuel : nat) (row col : Z) :
  forall i, safe (arms fuel g row col i).
Proof.
  induction fuel as [|fuel IH]; intros i; [discriminate|].
  cbn [arms]. unfold le_idx.
  apply safe_bind; [apply safe_index_test|intros go].
  apply safe_if; [|apply safe_ret].
  apply safe_bind; [apply safe_arm_step|intros [v|]].
  - apply safe_ret.
  - apply IH.
Qed.

Lemma safe_is_cross (fuel : nat) (row col : Z) :
  safe (is_cross fuel g row col).
Proof. unfold is_cross. repeat safe_step. apply safe_arms. Qed.
Lemma safe_for_lt {S : Type} (limit : Z) (body : Z -> S -> outcome S) :
  (forall i s, safe (body i s)) ->
  forall fuel i s, safe (for_lt limit body fuel i s).
Proof.
  intros Hbody fuel. induction fuel as [|fuel IH]; intros i s; [discriminate|].
  cbn [for_lt]. unfold lt_idx.
  apply safe_bind; [apply safe_index_test|intros go].
  apply safe_if; [|apply safe_ret].
  apply safe_bind; [apply Hbody|intros s']. apply IH.
Qed.

(** [find_crosses] compares no cell outside the grid. *)
Lemma safe_find_crosses (fuel : nat) : safe (find_crosses fuel g).
Proof.
  unfold find_crosses. apply safe_bind; [|intros s; apply safe_ret].
  apply safe_for_lt. intros r s. unfold scan_row.
  apply safe_for_lt. intros c s'. unfold visit.
  apply safe_bind; [apply safe_is_cross|intros v].
  apply safe_if; apply safe_ret.
Qed.
End Safe.

(** ** The answer of [is_cross] against the description's [Cross] *)

Lemma is_cross_1_iff (fuel : nat) (g : grid) (row col : Z) :
  well_formed g -> in_bounds row col -> (Z.to_nat ARM < fuel)%nat ->
  (returns (is_cross fuel g row col) 1 <-> Cross g row col).
Proof.
  intros Hg Hin Hfuel.
  destruct (is_cross_run fuel g row col Hg Hin Hfuel) as (v & tr & E & Hv & _).
  split.
  - intros [tr' E']. rewrite E in E'. injection E' as -> _.
    destruct Hv as [[_ Hc]|[Hv _]]; [assumption|discriminate].
  - intros Hc. destruct Hv as [[-> _]|[_ Hn]]; [|contradiction].
    eexists; eassumption.
Qed.

Lemma is_cross_0_iff (fuel : nat) (g : grid) (row col : Z) :
  well_formed g -> in_bounds row col -> (Z.to_nat ARM < fuel)%nat ->
  (returns (is_cross fuel g row col) 0 <-> ~ Cross g row col).
Proof.
  intros Hg Hin Hfuel.
  destruct (is_cross_run fuel g row col Hg Hin Hfuel) as (v & tr & E & Hv & _).
  split.
  - intros [tr' E']. rewrite E in E'. injection E' as -> _.
    destruct Hv as [[Hv _]|[_ Hn]]; [discriminate|assumption].
  - intros Hn. destruct Hv as [[_ Hc]|[-> _]]; [contradiction|].
    eexists; eassumption.
Qed.

Lemma crossb_iff (g : grid) (r c : Z) :
  well_formed g -> in_bounds r c -> (crossb g r c = true <-> Cross g r c).
Proof.
  intros Hg Hin. rewrite <- (is_cross_1_iff (S (Z.to_nat ARM)) g r c Hg Hin) by lia.
  unfold crossb, returns.
  destruct (is_cross (S (Z.to_nat ARM)) g r c) as [v tr| |].
  - split.
    + destruct v as [|[p|p|]|p]; try discriminate. intros _. now exists tr.
    + intros [tr' [= -> _]]. reflexivity.
  - split; [discriminate|intros [? [=]]].
  - split; [discriminate|intros [? [=]]].
Qed.

Lemma crosses_are_spec (g : grid) (expected : Z -> Z -> bool) :
  well_formed g -> crosses_are g expected = true ->
  forall r c, in_bounds r c -> (Cross g r c <-> expected r c = true).
Proof.
  intros Hg Hall r c Hin. unfold crosses_are in Hall.
  rewrite forallb_forall in Hall.
  specialize (Hall (r, c) (proj2 (in_row_major r c) Hin)). cbn [fst snd] in Hall.
  apply Bool.eqb_prop in Hall. rewrite <- Hall. symmetry. now apply crossb_iff.
Qed.

(** ** Test grids *)

Lemma blank_well_formed : well_formed blank.
Proof. split; [reflexivity|repeat constructor]. Qed.

Lemma plus_5_8_well_formed : well_formed plus_5_8.
Proof. split; [reflexivity|repeat constructor]. Qed.

Lemma corner_well_formed : well_formed corner.
Proof. split; [reflexivity|repeat constructor]. Qed.

Lemma full_well_formed : well_formed full.
Proof. split; [reflexivity|repeat constructor]. Qed.

Example plus_5_8_cells :
  plus_5_8 =
  [ [0;0;0;0;0;0;0;0;0;0;0;0;0;0;0;0];
    [0;0;0;0;0;0;0;0;0;0;0;0;0;0;0;0];
    [0;0;0;0;0;0;0;0;0;0;0;0;0;0;0;0];
    [0;0;0;0;0;0;0;0;0;0;0;0;0;0;0;0];
    [0;0;0;0;0;0;0;0;1;0;0;0;0;0;0;0];
    [0;0;0;0;0;0;0;1;1;1;0;0;0;0;0;0];
    [0;0;0;0;0;0;0;0;1;0;0;0;0;0;0;0];
    [0;0;0;0;0;0;0;0;0;0;0;0;0;0;0;0];
    [0;0;0;0;0;0;0;0;0;0;0;0;0;0;0;0];
    [0;0;0;0;0;0;0;0;0;0;0;0;0;0;0;0];
    [0;0;0;0;0;0;0;0;0;0;0;0;0;0;0;0];
    [0;0;0;0;0;0;0;0;0;0;0;0;0;0;0;0] ].
Proof. reflexivity. Qed.

Example corner_cells :
  corner =
  [1;0;0;0;0;0;0;0;0;0;0;0;0;0;0;0] :: repeat blank_row 11.
Proof. reflexivity. Qed.

Lemma plus_5_8_crosses :
  forall r c, in_bounds r c ->
    (Cross plus_5_8 r c <-> (r =? 5) && (c =? 8) = true).
Proof.
  apply (crosses_are_spec plus_5_8 (fun r c => (r =? 5) && (c =? 8)));
    [apply plus_5_8_well_formed|vm_compute; reflexivity].
Qed.

Lemma corner_crosses : forall r c, in_bounds r c -> ~ Cross corner r c.
Proof.
  intros r c Hin Hc.
  apply (crosses_are_spec corner (fun _ _ => false)) in Hc;
    [discriminate|apply corner_well_formed|vm_compute; reflexivity|assumption].
Qed.

(** ** More fuel changes nothing *)

Lemma agrees_bind {A B : Type} (m m' : outcome A) (k k' : A -> outcome B) :
  agrees m m' -> (forall a, agrees (k a) (k' a)) -> agrees (bind m k) (bind m' k').
Proof.
  intros Hm Hk b tr H.
  apply bind_inv in H as (a & tr1 & tr2 & E1 & E2 & ->).
  eapply bind_done; [apply Hm, E1|apply Hk, E2].
Qed.

Lemma agrees_refl {A : Type} (m : outcome A) : agrees m m.
Proof. intros a tr H. exact H. Qed.

Lemma arms_fuel_mono (g : grid) (row col : Z) (fuel fuel' : nat) :
  (fuel <= fuel')%nat ->
  forall i, agrees (arms fuel g row col i) (arms fuel' g row col i).
Proof.
  revert fuel'. induction fuel as [|fuel IH]; intros fuel' Hle i; [discriminate|].
  destruct fuel' as [|fuel']; [lia|]. cbn [arms].
  apply agrees_bind; [apply agrees_refl|intros go].
  destruct go; [|apply agrees_refl].
  apply agrees_bind; [apply agrees_refl|intros [v|]];
    [apply agrees_refl|apply IH; lia].
Qed.

Lemma is_cross_fuel_mono (g : grid) (row col : Z) (fuel fuel' : nat) :
  (fuel <= fuel')%nat ->
  agrees (is_cross fuel g row col) (is_cross fuel' g row col).
Proof.
  intros Hle. unfold is_cross.
  apply agrees_bind; [apply agrees_refl|intros _].
  apply agrees_bind; [apply agrees_refl|intros t].
  destruct t; [apply agrees_refl|now apply arms_fuel_mono].
Qed.

Lemma for_lt_fuel_mono {S : Type} (limit : Z) (body body' : Z -> S -> outcome S) :
  (forall i s, agrees (body i s) (body' i s)) ->
  forall fuel fuel', (fuel <= fuel')%nat ->
    forall i s, agrees (for_lt limit body fuel i s) (for_lt limit body' fuel' i s).
Proof.
  intros Hbody fuel.
  induction fuel as [|fuel IH]; intros fuel' Hle i s; [discriminate|].
  destruct fuel' as [|fuel']; [lia|]. cbn [for_lt].
  apply agrees_bind; [apply agrees_refl|intros go].
  destruct go; [|apply agrees_refl].
  apply agrees_bind; [apply Hbody|intros s']. apply IH. lia.
Qed.

Lemma find_crosses_fuel_mono (g : grid) (fuel fuel' : nat) :
  (fuel <= fuel')%nat -> agrees (find_crosses fuel g) (find_crosses fuel' g).
Proof.
  intros Hle. unfold find_crosses.
  apply agrees_bind; [|intros s; apply agrees_refl].
  apply for_lt_fuel_mono; [|assumption]. intros r s. unfold scan_row.
  apply for_lt_fuel_mono; [|assumption]. intros c s'. unfold visit.
  apply agrees_bind; [now apply is_cross_fuel_mono|intros v; apply agrees_refl].
Qed.

(** Once there is fuel for COLS + 1 tests per loop, the run of [find_crosses]
    (value and trace) no longer depends on the fuel. *)
Lemma find_crosses_fuel_irrelevant (g : grid) (fuel fuel' : nat) :
  well_formed g -> (Z.to_nat COLS < fuel)%nat -> (Z.to_nat COLS < fuel')%nat ->
  find_crosses fuel g = find_crosses fuel' g.
Proof.
  intros Hg Hfuel Hfuel'.
  destruct (find_crosses_run (S (Z.to_nat COLS)) g Hg) as (s & tr & E & _); [lia|].
  assert (Hle : (S (Z.to_nat COLS) <= fuel)%nat) by lia.
  assert (Hle' : (S (Z.to_nat COLS) <= fuel')%nat) by lia.
  rewrite (find_crosses_fuel_mono g _ fuel Hle _ _ E).
  rewrite (find_crosses_fuel_mono g _ fuel' Hle' _ _ E).
  reflexivity.
Qed.

(** ** A centre outside the grid *)

(** The centre is read before any bounds test: outside the grid the call has
    no defined result. *)
Lemma is_cross_centre_outside (fuel : nat) (g : grid) (row col : Z) :
  well_formed g -> ~ in_bounds row col -> is_cross fuel g row col = Undefined.
Proof.
  intros Hg Hout. unfold is_cross, emit, cell_ne. cbn [bind].
  destruct (lookup g row col) as [v|] eqn:Hv; [|reflexivity].
  elim Hout. eapply lookup_some_in_bounds; eauto.
Qed.

(** * The claims *)

(** C1: at an in-bounds centre of a well-formed grid [is_cross] returns a
    value that is true (non-zero) exactly when the centre holds 1 and, at every
    arm distance from 1 to ARM, the four neighbours are in bounds and hold 1;
    if the neighbours at some distance fail that, it returns 0. *)
Theorem is_cross_iff_cross (fuel : nat) (g : grid) (row col : Z) :
  well_formed g -> in_bounds row col -> (Z.to_nat ARM < fuel)%nat ->
  exists v,
    returns (is_cross fuel g row col) v /\
    (v <> 0 <->
       lookup g row col = Some 1 /\
       forall i, 1 <= i <= ARM ->
         (valid_row (row - i) /\ lookup g (row - i) col = Some 1) /\
         (valid_row (row + i) /\ lookup g (row + i) col = Some 1) /\
         (valid_col (col - i) /\ lookup g row (col - i) = Some 1) /\
         (valid_col (col + i) /\ lookup g row (col + i) = Some 1)) /\
    ((exists i, 1 <= i <= ARM /\ ~ arm_ok g row col i) -> v = 0).
Proof.
  intros Hg Hin Hfuel.
  destruct (is_cross_run fuel g row col Hg Hin Hfuel) as (v & tr & E & Hv & _).
  exists v. split; [eexists; eassumption|].
  destruct Hv as [[-> Hc]|[-> Hn]]; split.
  - split; [intros _; exact Hc|discriminate].
  - intros (i & Hi & Hbad). exfalso. apply Hbad, Hc, Hi.
  - split; [intros H; now elim H|intros Hc; elim Hn; exact Hc].
  - reflexivity.
Qed.

Lemma is_cross_iff_cross_witness :
  exists v,
    returns (is_cross 2 plus_5_8 5 8) v /\
    (v <> 0 <->
       lookup plus_5_8 5 8 = Some 1 /\
       forall i, 1 <= i <= ARM ->
         (valid_row (5 - i) /\ lookup plus_5_8 (5 - i) 8 = Some 1) /\
         (valid_row (5 + i) /\ lookup plus_5_8 (5 + i) 8 = Some 1) /\
         (valid_col (8 - i) /\ lookup plus_5_8 5 (8 - i) = Some 1) /\
         (valid_col (8 + i) /\ lookup plus_5_8 5 (8 + i) = Some 1)) /\
    ((exists i, 1 <= i <= ARM /\ ~ arm_ok plus_5_8 5 8 i) -> v = 0).
Proof.
  apply (is_cross_iff_cross 2 plus_5_8 5 8).
  - split; [reflexivity|repeat constructor].
  - unfold in_bounds, valid_row, valid_col, ROWS, COLS. lia.
  - vm_compute. lia.
Defined.

(** The locals after the scan, read against the code's own [is_cross]. *)
Lemma find_crosses_summary (fuel : nat) (g : grid) :
  well_formed g -> (Z.to_nat COLS < fuel)%nat ->
  exists s tr,
    find_crosses fuel g = Done [current_r s; Int (current_c s); Int (found s)] tr /\
    calls tr = row_major /\
    ((s = entry /\
      forall r c, in_bounds r c -> returns (is_cross fuel g r c) 0) \/
     (exists r0 c0,
         s = {| current_r := Int r0; current_c := c0; found := 1 |} /\
         in_bounds r0 c0 /\ returns (is_cross fuel g r0 c0) 1 /\
         forall r c, in_bounds r c -> returns (is_cross fuel g r c) 1 ->
                     row_major_le (r, c) (r0, c0))).
Proof.
  intros Hg Hfuel.
  assert (Hfuel' : (Z.to_nat ARM < fuel)%nat) by (consts; lia).
  destruct (find_crosses_run fuel g Hg Hfuel) as (s & tr & E & Hs & C & _).
  exists s, tr. split; [assumption|]. split; [assumption|].
  assert (Hall : forall r c, in_bounds r c -> before ROWS 0 r c).
  { intros r c Hin. split; [assumption|]. consts. lia. }
  destruct Hs as [[-> Hno]|(r0 & c0 & -> & [Hin0 _] & Hc0 & Hlast)].
  - left. split; [reflexivity|]. intros r c Hin.
    apply is_cross_0_iff; auto.
  - right. exists r0, c0. split; [reflexivity|]. split; [assumption|].
    split; [now apply is_cross_1_iff|].
    intros r c Hin Hr. apply Hlast; [now apply Hall|].
    now apply (is_cross_1_iff fuel g r c Hg Hin Hfuel').
Qed.

(** C2: when some cell of the grid is a cross, [find_crosses] visits every
    cell in row-major order (it does not stop at a match) and returns, with
    found = 1, the cross that comes last in that order. *)
Theorem find_crosses_returns_last_cross (fuel : nat) (g : grid) :
  well_formed g -> (Z.to_nat COLS < fuel)%nat ->
  (exists r c, in_bounds r c /\ returns (is_cross fuel g r c) 1) ->
  exists r c tr,
    find_crosses fuel g = Done [Int r; Int c; Int 1] tr /\
    calls tr = row_major /\
    in_bounds r c /\ returns (is_cross fuel g r c) 1 /\
    forall r' c', in_bounds r' c' -> returns (is_cross fuel g r' c') 1 ->
                  r' < r \/ (r' = r /\ c' <= c).
Proof.
  intros Hg Hfuel (r1 & c1 & Hin1 & H1).
  destruct (find_crosses_summary fuel g Hg Hfuel) as (s & tr & E & C & Hs).
  destruct Hs as [[-> Hno]|(r0 & c0 & -> & Hin0 & H0 & Hlast)].
  - specialize (Hno r1 c1 Hin1). pose proof (returns_inj _ _ _ H1 Hno). discriminate.
  - exists r0, c0, tr. split; [exact E|]. split; [exact C|].
    split; [exact Hin0|]. split; [exact H0|].
    intros r' c' Hin' H'. exact (Hlast r' c' Hin' H').
Qed.

Lemma find_crosses_returns_last_cross_witness :
  exists r c tr,
    find_crosses 17 two_crosses = Done [Int r; Int c; Int 1] tr /\
    calls tr = row_major /\
    in_bounds r c /\ returns (is_cross 17 two_crosses r c) 1 /\
    forall r' c', in_bounds r' c' -> returns (is_cross 17 two_crosses r' c') 1 ->
                  r' < r \/ (r' = r /\ c' <= c).
Proof.
  apply (find_crosses_returns_last_cross 17 two_crosses).
  - split; [reflexivity|repeat constructor].
  - vm_compute. lia.
  - exists 2, 12. split.
    + unfold in_bounds, valid_row, valid_col, ROWS, COLS. lia.
    + eexists. vm_compute. reflexivity.
Defined.

Example two_crosses_result :
  returns (find_crosses 17 two_crosses) [Int 8; Int 3; Int 1].
Proof. eexists. vm_compute. reflexivity. Qed.

(** C3: when no cell of the grid is a cross, [find_crosses] returns found = 0
    with the coordinates as they were before the scan: the column is the 0 it
    was initialised to, the row was never given a value. *)
Theorem find_crosses_no_cross (fuel : nat) (g : grid) :
  well_formed g -> (Z.to_nat COLS < fuel)%nat ->
  (forall r c, in_bounds r c -> ~ returns (is_cross fuel g r c) 1) ->
  returns (find_crosses fuel g)
          [current_r entry; Int (current_c entry); Int (found entry)] /\
  current_r entry = Indet /\ current_c entry = 0 /\ found entry = 0.
Proof.
  intros Hg Hfuel Hnone. split; [|repeat split].
  destruct (find_crosses_summary fuel g Hg Hfuel) as (s & tr & E & C & Hs).
  destruct Hs as [[-> Hno]|(r0 & c0 & -> & Hin0 & H0 & Hlast)].
  - exists tr. exact E.
  - elim (Hnone r0 c0 Hin0 H0).
Qed.

(** A grid whose scan-by-computation finds no cross has none. *)
Lemma no_cross_by_scan (fuel : nat) (g : grid) :
  well_formed g -> (Z.to_nat ARM < fuel)%nat ->
  crosses_are g (fun _ _ => false) = true ->
  forall r c, in_bounds r c -> ~ returns (is_cross fuel g r c) 1.
Proof.
  intros Hg Hfuel Hall r c Hin H.
  apply (is_cross_1_iff fuel g r c Hg Hin Hfuel) in H.
  apply (crosses_are_spec g _ Hg Hall r c Hin) in H. discriminate.
Qed.

Lemma find_crosses_no_cross_witness :
  returns (find_crosses 17 corner)
          [current_r entry; Int (current_c entry); Int (found entry)] /\
  current_r entry = Indet /\ current_c entry = 0 /\ found entry = 0.
Proof.
  apply (find_crosses_no_cross 17 corner).
  - split; [reflexivity|repeat constructor].
  - vm_compute. lia.
  - apply no_cross_by_scan.
    + split; [reflexivity|repeat constructor].
    + vm_compute. lia.
    + vm_compute. reflexivity.
Defined.

(** C4: the found-flag that [find_crosses] returns is 0 or 1, it is 1 exactly
    when some in-bounds cell satisfies [is_cross], and on a grid whose cells
    are all 0 it is 0. *)
Theorem find_crosses_found_flag (fuel : nat) (g : grid) :
  well_formed g -> (Z.to_nat COLS < fuel)%nat ->
  exists x y f,
    returns (find_crosses fuel g) [x; y; Int f] /\
    (f = 0 \/ f = 1) /\
    (f = 1 <-> exists r c, in_bounds r c /\ returns (is_cross fuel g r c) 1) /\
    ((forall r c, in_bounds r c -> lookup g r c = Some 0) -> f = 0).
Proof.
  intros Hg Hfuel.
  assert (Hfuel' : (Z.to_nat ARM < fuel)%nat) by (consts; lia).
  destruct (find_crosses_summary fuel g Hg Hfuel) as (s & tr & E & C & Hs).
  exists (current_r s), (Int (current_c s)), (found s).
  split; [exists tr; exact E|].
  destruct Hs as [[-> Hno]|(r0 & c0 & -> & Hin0 & H0 & Hlast)]; cbn [found].
  - split; [now left|]. split; [|reflexivity]. split; [discriminate|].
    intros (r & c & Hin & H1).
    pose proof (returns_inj _ _ _ H1 (Hno r c Hin)). discriminate.
  - split; [now right|]. split.
    + split; [intros _; now exists r0, c0|reflexivity].
    + intros Hzero. exfalso.
      apply (is_cross_1_iff fuel g r0 c0 Hg Hin0 Hfuel') in H0 as [Hone _].
      rewrite (Hzero r0 c0 Hin0) in Hone. discriminate.
Qed.

Lemma find_crosses_found_flag_witness :
  exists x y f,
    returns (find_crosses 17 blank) [x; y; Int f] /\
    (f = 0 \/ f = 1) /\
    (f = 1 <-> exists r c, in_bounds r c /\ returns (is_cross 17 blank r c) 1) /\
    ((forall r c, in_bounds r c -> lookup blank r c = Some 0) -> f = 0).
Proof.
  apply (find_crosses_found_flag 17 blank).
  - split; [reflexivity|repeat constructor].
  - vm_compute. lia.
Defined.

(** C5: at an in-bounds centre with a neighbour position at some arm distance
    outside the grid, [is_cross] returns 0 whatever the cells hold; a call at
    an in-bounds centre never reads outside the grid (it ends normally and
    every cell it compared is in bounds); on the grid that is 0 except for
    grid[0][0] = 1, [is_cross] at (0, 0) returns 0 and [find_crosses] returns
    found = 0. *)
Theorem is_cross_at_the_boundary (fuel fuel' : nat) (g : grid) (row col : Z) :
  well_formed g -> in_bounds row col ->
  (Z.to_nat ARM < fuel)%nat -> (Z.to_nat COLS < fuel')%nat ->
  ((exists i, 1 <= i <= ARM /\
              (~ valid_row (row - i) \/ ~ valid_row (row + i) \/
               ~ valid_col (col - i) \/ ~ valid_col (col + i))) ->
   returns (is_cross fuel g row col) 0) /\
  (exists v tr, is_cross fuel g row col = Done v tr /\ reads_in_grid tr) /\
  returns (is_cross fuel corner 0 0) 0 /\
  (exists x y, returns (find_crosses fuel' corner) [x; y; Int 0]).
Proof.
  intros Hg Hin Hfuel Hfuel'. repeat split.
  - intros (i & Hi & Hout). apply is_cross_0_iff; try assumption.
    intros [_ Hall]. destruct (Hall i Hi) as ((A & _) & (B & _) & (C & _) & (D & _)).
    tauto.
  - destruct (is_cross_run fuel g row col Hg Hin Hfuel) as (v & tr & E & _).
    eexists _, _. split; [exact E|]. eapply safe_is_cross; eauto.
  - apply is_cross_0_iff; try assumption; [apply corner_well_formed| |].
    + consts. lia.
    + apply corner_crosses. consts. lia.
  - destruct (find_crosses_summary fuel' corner corner_well_formed Hfuel')
      as (s & tr & E & C & Hs).
    destruct Hs as [[-> Hno]|(r0 & c0 & -> & Hin0 & H0 & Hlast)].
    + eexists _, _. exists tr. exact E.
    + exfalso. apply (corner_crosses r0 c0 Hin0).
      apply (is_cross_1_iff fuel' corner r0 c0 corner_well_formed Hin0); [consts; lia|].
      exact H0.
Qed.

Lemma is_cross_at_the_boundary_witness :
  ((exists i, 1 <= i <= ARM /\
              (~ valid_row (0 - i) \/ ~ valid_row (0 + i) \/
               ~ valid_col (15 - i) \/ ~ valid_col (15 + i))) ->
   returns (is_cross 2 full 0 15) 0) /\
  (exists v tr, is_cross 2 full 0 15 = Done v tr /\ reads_in_grid tr) /\
  returns (is_cross 2 corner 0 0) 0 /\
  (exists x y, returns (find_crosses 17 corner) [x; y; Int 0]).
Proof.
  apply (is_cross_at_the_boundary 2 17 full 0 15).
  - split; [reflexivity|repeat constructor].
  - unfold in_bounds, valid_row, valid_col, ROWS, COLS. lia.
  - vm_compute. lia.
  - vm_compute. lia.
Defined.

(** C6: at an in-bounds centre whose cell is not 1 (0 or any other value),
    [is_cross] returns 0 whatever the neighbouring cells hold; the loop over
    arm distances is not even entered, so no fuel is needed. *)
Theorem is_cross_centre_not_one (fuel : nat) (g : grid) (r c : Z) :
  well_formed g -> in_bounds r c -> lookup g r c <> Some 1 ->
  returns (is_cross fuel g r c) 0.
Proof.
  intros Hg Hin Hne. unfold is_cross, emit, cell_ne. cbn [bind].
  destruct (lookup_in_bounds g r c Hg Hin) as [v Hv]. rewrite Hv in *.
  destruct (Z.eqb_spec v 1) as [->|_]; [congruence|].
  eexists. reflexivity.
Qed.

Lemma is_cross_centre_not_one_witness : returns (is_cross 0 full_but_2 5 8) 0.
Proof.
  apply (is_cross_centre_not_one 0 full_but_2 5 8).
  - split; [reflexivity|repeat constructor].
  - unfold in_bounds, valid_row, valid_col, ROWS, COLS. lia.
  - vm_compute. discriminate.
Defined.

(** A grid whose scan-by-computation finds a cross at [(r, c)] only has no
    other. *)
Lemma only_cross_by_scan (fuel : nat) (g : grid) (r c : Z) :
  well_formed g -> (Z.to_nat ARM < fuel)%nat ->
  crosses_are g (fun r' c' => (r' =? r) && (c' =? c)) = true ->
  forall r' c', in_bounds r' c' -> returns (is_cross fuel g r' c') 1 ->
                r' = r /\ c' = c.
Proof.
  intros Hg Hfuel Hall r' c' Hin H.
  apply (is_cross_1_iff fuel g r' c' Hg Hin Hfuel) in H.
  apply (crosses_are_spec g _ Hg Hall r' c' Hin) in H.
  apply andb_true_iff in H as [Hr Hc]. split; lia.
Qed.

(** C7: when [(r, c)] is the only cell of the grid where [is_cross] holds,
    [find_crosses] returns (r, c, 1); on the grid that is 0 except for
    grid[5][8] and its four neighbours, [is_cross] holds at (5, 8) and
    [find_crosses] returns (5, 8, 1). *)
Theorem find_crosses_single_cross (fuel : nat) (g : grid) (r c : Z) :
  well_formed g -> (Z.to_nat COLS < fuel)%nat ->
  in_bounds r c -> returns (is_cross fuel g r c) 1 ->
  (forall r' c', in_bounds r' c' -> returns (is_cross fuel g r' c') 1 ->
                 r' = r /\ c' = c) ->
  returns (find_crosses fuel g) [Int r; Int c; Int 1] /\
  returns (is_cross fuel plus_5_8 5 8) 1 /\
  returns (find_crosses fuel plus_5_8) [Int 5; Int 8; Int 1].
Proof.
  intros Hg Hfuel Hin H1 Honly.
  assert (Hfuel' : (Z.to_nat ARM < fuel)%nat) by (consts; lia).
  assert (Hgen : forall g r c,
             well_formed g -> in_bounds r c -> returns (is_cross fuel g r c) 1 ->
             (forall r' c', in_bounds r' c' -> returns (is_cross fuel g r' c') 1 ->
                            r' = r /\ c' = c) ->
             returns (find_crosses fuel g) [Int r; Int c; Int 1]).
  { clear g r c Hg Hin H1 Honly. intros g r c Hg Hin H1 Honly.
    destruct (find_crosses_summary fuel g Hg Hfuel) as (s & tr & E & C & Hs).
    destruct Hs as [[-> Hno]|(r0 & c0 & -> & Hin0 & H0 & Hlast)].
    - pose proof (returns_inj _ _ _ H1 (Hno r c Hin)). discriminate.
    - destruct (Honly r0 c0 Hin0 H0) as [-> ->]. exists tr. exact E. }
  assert (H58 : in_bounds 5 8) by (consts; lia).
  assert (Hplus : returns (is_cross fuel plus_5_8 5 8) 1).
  { apply is_cross_1_iff; [apply plus_5_8_well_formed|assumption|assumption|].
    now apply plus_5_8_crosses. }
  split; [now apply Hgen|]. split; [exact Hplus|].
  apply Hgen; [apply plus_5_8_well_formed|assumption|exact Hplus|].
  apply only_cross_by_scan;
    [apply plus_5_8_well_formed|assumption|vm_compute; reflexivity].
Qed.

Lemma find_crosses_single_cross_witness :
  returns (find_crosses 17 plus_5_8) [Int 5; Int 8; Int 1] /\
  returns (is_cross 17 plus_5_8 5 8) 1 /\
  returns (find_crosses 17 plus_5_8) [Int 5; Int 8; Int 1].
Proof.
  apply (find_crosses_single_cross 17 plus_5_8 5 8).
  - split; [reflexivity|repeat constructor].
  - vm_compute. lia.
  - unfold in_bounds, valid_row, valid_col, ROWS, COLS. lia.
  - eexists. vm_compute. reflexivity.
  - apply only_cross_by_scan.
    + split; [reflexivity|repeat constructor].
    + vm_compute. lia.
    + vm_compute. reflexivity.
Defined.

(** C8, as the code has it: with fuel for COLS + 1 tests per loop
    [find_crosses] ends normally on every well-formed grid with its three
    results, having called [is_cross] once on each of the ROWS x COLS cells,
    compared a cell with 1 at most ROWS x COLS x (1 + 4 x ARM) times and
    compared indices at most ((5 x ARM + 2) x COLS + 2) x ROWS + 1 times. *)
Theorem find_crosses_terminates (fuel : nat) (g : grid) :
  well_formed g -> (Z.to_nat COLS < fuel)%nat ->
  exists v tr,
    find_crosses fuel g = Done v tr /\
    length v = 3%nat /\
    calls tr = row_major /\
    Z.of_nat (length (calls tr)) = ROWS * COLS /\
    Z.of_nat (cell_cmps tr) <= ROWS * COLS * (1 + 4 * ARM) /\
    Z.of_nat (index_cmps tr) <= ((5 * ARM + 2) * COLS + 2) * ROWS + 1.
Proof.
  intros Hg Hfuel.
  destruct (find_crosses_run fuel g Hg Hfuel) as (s & tr & E & _ & C & N & I).
  eexists _, tr. split; [exact E|]. split; [reflexivity|].
  split; [exact C|]. rewrite C. split; [reflexivity|]. split; [|exact I].
  consts. lia.
Qed.

Lemma find_crosses_terminates_witness :
  exists v tr,
    find_crosses 17 full = Done v tr /\
    length v = 3%nat /\
    calls tr = row_major /\
    Z.of_nat (length (calls tr)) = ROWS * COLS /\
    Z.of_nat (cell_cmps tr) <= ROWS * COLS * (1 + 4 * ARM) /\
    Z.of_nat (index_cmps tr) <= ((5 * ARM + 2) * COLS + 2) * ROWS + 1.
Proof.
  apply (find_crosses_terminates 17 full).
  - split; [reflexivity|repeat constructor].
  - vm_compute. lia.
Defined.

(** C8 as stated fails: on the well-formed grid whose cells are all 1 the scan
    compares a grid cell with 1 as many as 818 times (and indices 1227 times),
    more than ROWS x COLS x 4 x ARM = 768. *)
Lemma full_grid_exceeds_stated_bound :
  well_formed full /\
  exists v tr,
    find_crosses 17 full = Done v tr /\
    cell_cmps tr = 818%nat /\ index_cmps tr = 1227%nat /\
    ROWS * COLS * 4 * ARM = 768 /\
    Z.of_nat (cell_cmps tr) > ROWS * COLS * 4 * ARM.
Proof.
  split; [exact full_well_formed|].
  eexists _, _. split; [vm_compute; reflexivity|].
  vm_compute. repeat split.
Qed.

(** The counts on the all-ones grid do not depend on the fuel. *)
Lemma full_grid_comparisons (fuel : nat) :
  (Z.to_nat COLS < fuel)%nat ->
  exists v tr,
    find_crosses fuel full = Done v tr /\
    cell_cmps tr = 818%nat /\ index_cmps tr = 1227%nat.
Proof.
  intros Hfuel.
  rewrite (find_crosses_fuel_irrelevant full fuel 17 full_well_formed Hfuel)
    by (vm_compute; lia).
  eexists _, _. split; [vm_compute; reflexivity|]. vm_compute. split; reflexivity.
Qed.

(** C9: at an in-bounds centre of a well-formed grid the int that [is_cross]
    returns is 0 or 1. *)
Theorem is_cross_returns_0_or_1 (fuel : nat) (g : grid) (row col : Z) :
  well_formed g -> in_bounds row col -> (Z.to_nat ARM < fuel)%nat ->
  exists v, returns (is_cross fuel g row col) v /\ (v = 0 \/ v = 1).
Proof.
  intros Hg Hin Hfuel.
  destruct (is_cross_run fuel g row col Hg Hin Hfuel) as (v & tr & E & Hv & _).
  exists v. split; [eexists; exact E|].
  destruct Hv as [[-> _]|[-> _]]; [now right|now left].
Qed.

Lemma is_cross_returns_0_or_1_witness :
  exists v, returns (is_cross 2 full 3 4) v /\ (v = 0 \/ v = 1).
Proof.
  apply (is_cross_returns_0_or_1 2 full 3 4).
  - split; [reflexivity|repeat constructor].
  - unfold in_bounds, valid_row, valid_col, ROWS, COLS. lia.
  - vm_compute. lia.
Defined.

(** C10: when [find_crosses] returns found = 1, the row and column it returns
    are values inside the grid and [is_cross] returns 1 there. *)
Theorem find_crosses_found_is_cross (fuel : nat) (g : grid) (x y : cint) :
  well_formed g -> (Z.to_nat COLS < fuel)%nat ->
  returns (find_crosses fuel g) [x; y; Int 1] ->
  exists r c,
    x = Int r /\ y = Int c /\ in_bounds r c /\ returns (is_cross fuel g r c) 1.
Proof.
  intros Hg Hfuel Hret.
  destruct (find_crosses_summary fuel g Hg Hfuel) as (s & tr & E & C & Hs).
  pose proof (returns_inj _ _ _ Hret (ex_intro _ tr E)) as Heq.
  destruct Hs as [[-> Hno]|(r0 & c0 & -> & Hin0 & H0 & Hlast)];
    cbn [current_r current_c found entry] in Heq.
  - discriminate.
  - injection Heq as -> ->. now exists r0, c0.
Qed.

Lemma find_crosses_found_is_cross_witness :
  exists r c,
    Int 10 = Int r /\ Int 14 = Int c /\ in_bounds r c /\
    returns (is_cross 17 full r c) 1.
Proof.
  apply (find_crosses_found_is_cross 17 full (Int 10) (Int 14)).
  - split; [reflexivity|repeat constructor].
  - vm_compute. lia.
  - eexists. vm_compute. reflexivity.
Defined.

(** * Further properties of the code *)

(** ** Edge behaviour and memory safety *)

(** X1: [is_cross] reads [grid[row][col]] before it tests any bound, so at a
    centre outside the grid the call reads outside the array: the run has no
    defined result, whatever the fuel. *)
Theorem is_cross_outside_is_undefined (fuel : nat) (g : grid) (row col : Z) :
  well_formed g -> ~ in_bounds row col -> is_cross fuel g row col = Undefined.
Proof.
  intros Hg Hout. unfold is_cross, emit, cell_ne. cbn [bind].
  destruct (lookup g row col) as [v|] eqn:Hv; [|reflexivity].
  elim Hout. eapply lookup_some_in_bounds; eauto.
Qed.

Lemma is_cross_outside_is_undefined_witness :
  is_cross 2 full 12 0 = Undefined.
Proof.
  apply (is_cross_outside_is_undefined 2 full 12 0).
  - split; [reflexivity|repeat constructor].
  - unfold in_bounds, valid_row, valid_col, ROWS, COLS. lia.
Defined.

(** X2: on a well-formed grid the whole scan is memory safe: [find_crosses]
    ends normally and every cell it compared with 1, in any of its 192 calls
    of [is_cross], lies inside the grid. *)
Theorem find_crosses_reads_in_grid (fuel : nat) (g : grid) :
  well_formed g -> (Z.to_nat COLS < fuel)%nat ->
  exists v tr, find_crosses fuel g = Done v tr /\ reads_in_grid tr.
Proof.
  intros Hg Hfuel.
  destruct (find_crosses_run fuel g Hg Hfuel) as (s & tr & E & _).
  eexists _, tr. split; [exact E|]. eapply safe_find_crosses; eauto.
Qed.

Lemma find_crosses_reads_in_grid_witness :
  exists v tr, find_crosses 17 full = Done v tr /\ reads_in_grid tr.
Proof.
  apply (find_crosses_reads_in_grid 17 full).
  - split; [reflexivity|repeat constructor].
  - vm_compute. lia.
Defined.

(** ** Where a cross can be *)

(** X3: a cross centre is never on the rim of the grid: when [find_crosses]
    returns found = 1, the returned row lies in [ARM, ROWS - ARM) and the
    returned column in [ARM, COLS - ARM). *)
Theorem find_crosses_result_is_interior (fuel : nat) (g : grid) (x y : cint) :
  well_formed g -> (Z.to_nat COLS < fuel)%nat ->
  returns (find_crosses fuel g) [x; y; Int 1] ->
  exists r c,
    x = Int r /\ y = Int c /\
    ARM <= r < ROWS - ARM /\ ARM <= c < COLS - ARM.
Proof.
  intros Hg Hfuel Hret.
  assert (Hfuel' : (Z.to_nat ARM < fuel)%nat) by (consts; lia).
  destruct (find_crosses_summary fuel g Hg Hfuel) as (s & tr & E & C & Hs).
  pose proof (returns_inj _ _ _ Hret (ex_intro _ tr E)) as Heq.
  destruct Hs as [[-> Hno]|(r0 & c0 & -> & Hin0 & H0 & Hlast)];
    cbn [current_r current_c found entry] in Heq; [discriminate|].
  injection Heq as -> ->. exists r0, c0. split; [reflexivity|]. split; [reflexivity|].
  apply (is_cross_1_iff fuel g r0 c0 Hg Hin0 Hfuel') in H0 as [_ Harms].
  destruct (Harms ARM) as ((A & _) & (B & _) & (C' & _) & (D & _)); consts; lia.
Qed.

Lemma find_crosses_result_is_interior_witness :
  exists r c,
    Int 8 = Int r /\ Int 3 = Int c /\
    ARM <= r < ROWS - ARM /\ ARM <= c < COLS - ARM.
Proof.
  apply (find_crosses_result_is_interior 17 two_crosses (Int 8) (Int 3)).
  - split; [reflexivity|repeat constructor].
  - vm_compute. lia.
  - eexists. vm_compute. reflexivity.
Defined.

(** ** Only "is it 1?" matters *)

Lemma index_map {A B : Type} (f : A -> B) (l : list A) (i : Z) :
  index (map f l) i = option_map f (index l i).
Proof. unfold index. destruct (i <? 0); [reflexivity|apply nth_error_map]. Qed.

Lemma lookup_binarise (g : grid) (r c : Z) :
  lookup (binarise g) r c =
  option_map (fun v => if v =? 1 then 1 else 0) (lookup g r c).
Proof.
  unfold lookup, binarise. rewrite index_map.
  destruct (index g r) as [row|]; [apply index_map|reflexivity].
Qed.

Lemma cell_ne_binarise (g : grid) (r c : Z) :
  cell_ne (binarise g) r c 1 = cell_ne g r c 1.
Proof.
  unfold cell_ne. rewrite lookup_binarise.
  destruct (lookup g r c) as [v|]; [|reflexivity]. cbn [option_map].
  now destruct (Z.eqb_spec v 1) as [->|].
Qed.

Lemma arms_binarise (g : grid) (row col : Z) (fuel : nat) :
  forall i, arms fuel (binarise g) row col i = arms fuel g row col i.
Proof.
  induction fuel as [|fuel IH]; intros i; [reflexivity|].
  cbn [arms]. unfold le_idx. cbn [bind].
  destruct (i <=? ARM); [|reflexivity].
  unfold arm_step. rewrite !cell_ne_binarise.
  fold (arm_step g row col i).
  destruct (arm_step g row col i) as [[v|] tr| |]; cbn [bind]; try reflexivity.
  now rewrite IH.
Qed.

Lemma is_cross_binarise (fuel : nat) (g : grid) (row col : Z) :
  is_cross fuel (binarise g) row col = is_cross fuel g row col.
Proof.
  unfold is_cross. rewrite cell_ne_binarise.
  unfold emit. cbn [bind].
  destruct (cell_ne g row col 1) as [[|] tr| |]; cbn [bind]; try reflexivity.
  now rewrite arms_binarise.
Qed.

(** Loops whose bodies agree everywhere are the same loop. *)
Lemma for_lt_ext {S : Type} (limit : Z) (body body' : Z -> S -> outcome S) :
  (forall i s, body i s = body' i s) ->
  forall fuel i s, for_lt limit body fuel i s = for_lt limit body' fuel i s.
Proof.
  intros Hbody fuel. induction fuel as [|fuel IH]; intros i s; [reflexivity|].
  cbn [for_lt]. unfold lt_idx. cbn [bind].
  destruct (i <? limit); [|reflexivity].
  rewrite Hbody. destruct (body' i s) as [s' tr| |]; cbn [bind]; try reflexivity.
  now rewrite IH.
Qed.

(** X4: the two functions only ever ask whether a cell equals 1.  Replacing
    every value other than 1 by 0 changes nothing: the runs of [is_cross] and
    of [find_crosses] on the binarised grid are the runs on the original grid,
    result and trace alike, for every grid, centre and fuel. *)
Theorem runs_ignore_values_other_than_1 (fuel : nat) (g : grid) (row col : Z) :
  is_cross fuel (binarise g) row col = is_cross fuel g row col /\
  find_crosses fuel (binarise g) = find_crosses fuel g.
Proof.
  split; [apply is_cross_binarise|].
  unfold find_crosses. f_equal.
  apply for_lt_ext. intros r s. unfold scan_row.
  apply for_lt_ext. intros c s'. unfold visit.
  now rewrite is_cross_binarise.
Qed.

(** ** Which cells a call looks at *)

Lemma in_zseq (n : nat) : forall a x, In x (zseq a n) <-> a <= x < a + Z.of_nat n.
Proof.
  induction n as [|n IH]; intros a x; cbn [zseq In].
  - lia.
  - rewrite IH. lia.
Qed.


Lemma arm_cells_in_probe_order (row col i : Z) (p : Z * Z) :
  1 <= i <= ARM -> In p (arm_cells row col i) -> In p (probe_order row col).
Proof.
  intros Hi Hp. right. apply in_flat_map. exists i. split; [|assumption].
  apply in_zseq. lia.
Qed.

Lemma cell_ne_agree (g g' : grid) (r c k : Z) :
  lookup g r c = lookup g' r c -> cell_ne g r c k = cell_ne g' r c k.
Proof. unfold cell_ne. now intros ->. Qed.

Lemma arm_step_agree (g g' : grid) (row col i : Z) :
  (forall r c, In (r, c) (arm_cells row col i) -> lookup g r c = lookup g' r c) ->
  arm_step g row col i = arm_step g' row col i.
Proof.
  intros H. unfold arm_step.
  rewrite (cell_ne_agree g g' (row - i) col) by (apply H; cbn; tauto).
  rewrite (cell_ne_agree g g' (row + i) col) by (apply H; cbn; tauto).
  rewrite (cell_ne_agree g g' row (col - i)) by (apply H; cbn; tauto).
  rewrite (cell_ne_agree g g' row (col + i)) by (apply H; cbn; tauto).
  reflexivity.
Qed.

Lemma arms_agree (g g' : grid) (row col : Z) :
  (forall r c, In (r, c) (probe_order row col) -> lookup g r c = lookup g' r c) ->
  forall fuel i, 1 <= i -> arms fuel g row col i = arms fuel g' row col i.
Proof.
  intros H fuel. induction fuel as [|fuel IH]; intros i Hi; [reflexivity|].
  cbn [arms]. unfold le_idx. cbn [bind].
  destruct (Z.leb_spec i ARM) as [Hle|Hgt]; [|reflexivity].
  rewrite (arm_step_agree g g' row col i).
  - destruct (arm_step g' row col i) as [[v|] tr| |]; cbn [bind]; try reflexivity.
    rewrite IH by lia. reflexivity.
  - intros r c Hin. apply H. apply (arm_cells_in_probe_order row col i); [lia|exact Hin].
Qed.

(** X5: a call of [is_cross] depends on the grid only through the centre and
    its neighbours at distances 1..ARM in the four directions: two grids that
    agree there (on value, or on lying outside the array) give the same run,
    whatever the other cells hold. *)
Theorem is_cross_depends_on_probe_cells (fuel : nat) (g g' : grid) (row col : Z) :
  (forall r c, In (r, c) (probe_order row col) -> lookup g r c = lookup g' r c) ->
  is_cross fuel g row col = is_cross fuel g' row col.
Proof.
  intros H. unfold is_cross, emit. cbn [bind].
  rewrite (cell_ne_agree g g' row col) by (apply H; left; reflexivity).
  destruct (cell_ne g' row col 1) as [[|] tr| |]; cbn [bind]; try reflexivity.
  rewrite (arms_agree g g' row col H) by lia. reflexivity.
Qed.

Lemma is_cross_depends_on_probe_cells_witness :
  is_cross 2 plus_5_8 5 8 = is_cross 2 plus_5_8_on_sevens 5 8.
Proof.
  apply (is_cross_depends_on_probe_cells 2 plus_5_8 plus_5_8_on_sevens 5 8).
  intros r c Hin. vm_compute in Hin.
  repeat (destruct Hin as [Hin|Hin]; [injection Hin as <- <-; reflexivity|]).
  destruct Hin.
Defined.

Lemma cells_app (a b : list event) : cells (a ++ b) = cells a ++ cells b.
Proof. unfold cells. apply flat_map_app. Qed.






(** ** More ones never lose a cross *)

Lemma Cross_mono (g g' : grid) (r c : Z) :
  ones_within g g' -> Cross g r c -> Cross g' r c.
Proof.
  intros Hsub [Hc Harms]. split; [now apply Hsub|].
  intros i Hi. destruct (Harms i Hi) as ((A & A') & (B & B') & (C & C') & (D & D')).
  exact (conj (conj A (Hsub _ _ A'))
           (conj (conj B (Hsub _ _ B'))
              (conj (conj C (Hsub _ _ C')) (conj D (Hsub _ _ D'))))).
Qed.

(** X7: detection is monotone in the set of cells that hold 1.  If every cell
    that is 1 in [g] is 1 in [g'] and [find_crosses] finds a cross in [g],
    then it finds one in [g'] too, and the position it returns for [g'] is
    the same or later in row-major order. *)
Theorem find_crosses_monotone (fuel : nat) (g g' : grid) (r c : Z) :
  well_formed g -> well_formed g' -> (Z.to_nat COLS < fuel)%nat ->
  ones_within g g' ->
  returns (find_crosses fuel g) [Int r; Int c; Int 1] ->
  exists r' c',
    returns (find_crosses fuel g') [Int r'; Int c'; Int 1] /\
    (r < r' \/ (r = r' /\ c <= c')).
Proof.
  intros Hg Hg' Hfuel Hsub Hret.
  assert (Hfuel' : (Z.to_nat ARM < fuel)%nat) by (consts; lia).
  destruct (find_crosses_summary fuel g Hg Hfuel) as (s & tr & E & _ & Hs).
  pose proof (returns_inj _ _ _ Hret (ex_intro _ tr E)) as Heq.
  destruct Hs as [[-> _]|(r0 & c0 & -> & Hin0 & H0 & _)];
    cbn [current_r current_c found entry] in Heq; [discriminate|].
  injection Heq as <- <-.
  apply (is_cross_1_iff fuel g r c Hg Hin0 Hfuel') in H0.
  apply (Cross_mono g g' r c Hsub) in H0.
  apply (is_cross_1_iff fuel g' r c Hg' Hin0 Hfuel') in H0.
  destruct (find_crosses_summary fuel g' Hg' Hfuel) as (s' & tr' & E' & _ & Hs').
  destruct Hs' as [[-> Hno]|(r1 & c1 & -> & Hin1 & H1 & Hlast)].
  - pose proof (returns_inj _ _ _ H0 (Hno r c Hin0)). discriminate.
  - exists r1, c1. split; [exists tr'; exact E'|]. exact (Hlast r c Hin0 H0).
Qed.

(** [ones_within], decided cell by cell. *)
Lemma ones_within_by_scan (g g' : grid) :
  well_formed g ->
  forallb (fun p => match lookup g (fst p) (snd p) with
                    | Some 1 => match lookup g' (fst p) (snd p) with
                                | Some 1 => true
                                | _ => false
                                end
                    | _ => true
                    end) row_major = true ->
  ones_within g g'.
Proof.
  intros Hg Hall r c H1. rewrite forallb_forall in Hall.
  assert (Hin : in_bounds r c) by (eapply lookup_some_in_bounds; eauto).
  specialize (Hall (r, c) (proj2 (in_row_major r c) Hin)). cbn [fst snd] in Hall.
  rewrite H1 in Hall.
  destruct (lookup g' r c) as [[|[p|p|]|p]|]; try discriminate. reflexivity.
Qed.

Lemma find_crosses_monotone_witness :
  exists r' c',
    returns (find_crosses 17 plus_5_8_and_8_3) [Int r'; Int c'; Int 1] /\
    (5 < r' \/ (5 = r' /\ 8 <= c')).
Proof.
  apply (find_crosses_monotone 17 plus_5_8 plus_5_8_and_8_3 5 8).
  - split; [reflexivity|repeat constructor].
  - split; [reflexivity|repeat constructor].
  - vm_compute. lia.
  - apply ones_within_by_scan.
    + split; [reflexivity|repeat constructor].
    + vm_compute. reflexivity.
  - eexists. vm_compute. reflexivity.
Defined.

(** ** The least a scan costs *)

Lemma visit_cost (fuel : nat) (g : grid) (r c : Z) (s : locals) :
  well_formed g -> in_bounds r c -> (Z.to_nat ARM < fuel)%nat ->
  exists s' tr, visit fuel g r c s = Done s' tr /\ (1 <= cell_cmps tr)%nat.
Proof.
  intros Hg Hin Hfuel. unfold visit.
  destruct (is_cross_run fuel g r c Hg Hin Hfuel) as (v & tr & E & _ & _ & N & _).
  rewrite E. cbn [bind].
  exists (if v =? 0 then s else {| current_r := Int r; current_c := c; found := 1 |}),
         (([Enter r c] ++ tr) ++ []).
  split; [now destruct (v =? 0)|]. traces. lia.
Qed.

Lemma scan_row_cost (fuel : nat) (g : grid) (r : Z) (s : locals) :
  well_formed g -> valid_row r -> (Z.to_nat COLS < fuel)%nat ->
  exists s' tr,
    scan_row fuel g r s = Done s' tr /\
    COLS <= Z.of_nat (cell_cmps tr) /\
    COLS + 1 <= Z.of_nat (index_cmps tr).
Proof.
  intros Hg Hr Hfuel. unfold scan_row.
  pose (P := fun (c : Z) (_ : locals) (tr : list event) =>
               c <= Z.of_nat (cell_cmps tr) /\ c <= Z.of_nat (index_cmps tr)).
  destruct (for_lt_rule COLS (visit fuel g r) P) with
    (fuel := fuel) (i := 0) (s := s) (tr := @nil event)
    as (s' & tr & E & N & I).
  - intros c s1 tr1 Hc (N1 & I1).
    destruct (visit_cost fuel g r c s1 Hg) as (s2 & tr2 & E2 & N2);
      [split; assumption|consts; lia|].
    exists s2, tr2. split; [assumption|]. unfold P. traces. lia.
  - consts; lia.
  - consts; lia.
  - unfold P. traces. lia.
  - exists s', (tr ++ [Cmp_index]). cbn [app] in N, I.
    split; [assumption|]. traces. lia.
Qed.

(** X8: the scan never costs less than one pass over the grid.  On every
    well-formed grid [find_crosses] compares a cell with 1 at least
    ROWS x COLS = 192 times (each centre once) and compares indices at least
    ROWS x (COLS + 2) + 1 = 217 times (the tests of the two loops). *)
Theorem find_crosses_cost_at_least (fuel : nat) (g : grid) :
  well_formed g -> (Z.to_nat COLS < fuel)%nat ->
  exists v tr,
    find_crosses fuel g = Done v tr /\
    ROWS * COLS <= Z.of_nat (cell_cmps tr) /\
    ROWS * (COLS + 2) + 1 <= Z.of_nat (index_cmps tr).
Proof.
  intros Hg Hfuel. unfold find_crosses.
  pose (P := fun (r : Z) (_ : locals) (tr : list event) =>
               COLS * r <= Z.of_nat (cell_cmps tr) /\
               (COLS + 2) * r <= Z.of_nat (index_cmps tr)).
  destruct (for_lt_rule ROWS (scan_row fuel g) P) with
    (fuel := fuel) (i := 0) (s := entry) (tr := @nil event)
    as (s' & tr & E & N & I).
  - intros r s1 tr1 Hr (N1 & I1).
    destruct (scan_row_cost fuel g r s1 Hg Hr Hfuel) as (s2 & tr2 & E2 & N2 & I2).
    exists s2, tr2. split; [assumption|]. unfold P. traces. consts. lia.
  - consts; lia.
  - consts; lia.
  - unfold P. traces. consts. lia.
  - rewrite E. cbn [bind ret]. eexists _, ((tr ++ [Cmp_index]) ++ []).
    cbn [app] in N, I. split; [reflexivity|]. traces. consts. lia.
Qed.

Lemma find_crosses_cost_at_least_witness :
  exists v tr,
    find_crosses 17 full = Done v tr /\
    ROWS * COLS <= Z.of_nat (cell_cmps tr) /\
    ROWS * (COLS + 2) + 1 <= Z.of_nat (index_cmps tr).
Proof.
  apply (find_crosses_cost_at_least 17 full).
  - split; [reflexivity|repeat constructor].
  - vm_compute. lia.
Defined.

(** ** A grid without ones *)

Lemma cells_one (e : event) :
  cells [e] = match e with Cmp_cell r c => [(r, c)] | _ => [] end.
Proof. unfold cells. cbn. apply app_nil_r. Qed.

Lemma cell_cmps_cells (tr : list event) : cell_cmps tr = length (cells tr).
Proof.
  unfold cell_cmps, cells. induction tr as [|e tr IH]; [reflexivity|].
  cbn [filter flat_map]. rewrite length_app, <- IH. now destruct e.
Qed.

(** At a centre that is not 1 the call compares that one cell and nothing
    else. *)
Lemma is_cross_miss_run (fuel : nat) (g : grid) (r c : Z) :
  well_formed g -> in_bounds r c -> lookup g r c <> Some 1 ->
  is_cross fuel g r c = Done 0 [Enter r c; Cmp_cell r c].
Proof.
  intros Hg Hin Hne. unfold is_cross, emit, cell_ne. cbn [bind].
  destruct (lookup_in_bounds g r c Hg Hin) as [v Hv]. rewrite Hv in *.
  destruct (Z.eqb_spec v 1) as [->|_]; [congruence|reflexivity].
Qed.

Lemma scan_row_without_ones (fuel : nat) (g : grid) (r : Z) :
  well_formed g -> valid_row r -> (Z.to_nat COLS < fuel)%nat -> no_ones g ->
  exists tr,
    scan_row fuel g r entry = Done entry tr /\
    cells tr = row_cells r /\
    Z.of_nat (index_cmps tr) = COLS + 1.
Proof.
  intros Hg Hr Hfuel Hnone. unfold scan_row.
  pose (P := fun (c : Z) (s : locals) (tr : list event) =>
               s = entry /\ cells tr = map (pair r) (upto c) /\
               Z.of_nat (index_cmps tr) = c).
  destruct (for_lt_rule COLS (visit fuel g r) P) with
    (fuel := fuel) (i := 0) (s := entry) (tr := @nil event)
    as (s' & tr & E & -> & C & I).
  - intros c s1 tr1 Hc (-> & C1 & I1).
    exists entry, [Enter r c; Cmp_cell r c]. split.
    + unfold visit.
      rewrite (is_cross_miss_run fuel g r c Hg (conj Hr Hc) (Hnone r c)).
      reflexivity.
    + unfold P. split; [reflexivity|].
      change [Enter r c; Cmp_cell r c] with ([Enter r c] ++ [Cmp_cell r c]).
      rewrite !cells_app, !cells_one, C1. traces.
      split; [|lia]. rewrite upto_succ, map_app by lia. reflexivity.
  - consts; lia.
  - consts; lia.
  - unfold P. repeat split.
  - exists (tr ++ [Cmp_index]). cbn [app] in C, I. split; [assumption|].
    rewrite cells_app, cells_one, app_nil_r. traces. split; [exact C|lia].
Qed.

(** [no_ones], decided cell by cell. *)
Lemma no_ones_by_scan (g : grid) :
  well_formed g ->
  forallb (fun p => match lookup g (fst p) (snd p) with
                    | Some 1 => false
                    | _ => true
                    end) row_major = true ->
  no_ones g.
Proof.
  intros Hg Hall r c H1. rewrite forallb_forall in Hall.
  assert (Hin : in_bounds r c) by (eapply lookup_some_in_bounds; eauto).
  specialize (Hall (r, c) (proj2 (in_row_major r c) Hin)). cbn [fst snd] in Hall.
  rewrite H1 in Hall. discriminate.
Qed.

(** X9: on a well-formed grid in which no cell holds 1 the scan is as cheap as
    it can be: [find_crosses] returns the no-match result having compared
    exactly the 192 centres, each once and in row-major order, and no
    neighbour; it makes ROWS x (COLS + 2) + 1 = 217 index comparisons, all of
    them loop tests. *)
Theorem find_crosses_cost_without_ones (fuel : nat) (g : grid) :
  well_formed g -> (Z.to_nat COLS < fuel)%nat -> no_ones g ->
  exists tr,
    find_crosses fuel g = Done [Indet; Int 0; Int 0] tr /\
    cells tr = row_major /\
    Z.of_nat (cell_cmps tr) = ROWS * COLS /\
    Z.of_nat (index_cmps tr) = ROWS * (COLS + 2) + 1.
Proof.
  intros Hg Hfuel Hnone. unfold find_crosses.
  pose (P := fun (r : Z) (s : locals) (tr : list event) =>
               s = entry /\ cells tr = flat_map row_cells (upto r) /\
               Z.of_nat (index_cmps tr) = (COLS + 2) * r).
  destruct (for_lt_rule ROWS (scan_row fuel g) P) with
    (fuel := fuel) (i := 0) (s := entry) (tr := @nil event)
    as (s' & tr & E & -> & C & I).
  - intros r s1 tr1 Hr (-> & C1 & I1).
    destruct (scan_row_without_ones fuel g r Hg Hr Hfuel Hnone) as (tr2 & E2 & C2 & I2).
    exists entry, tr2. split; [assumption|]. unfold P. split; [reflexivity|].
    rewrite !cells_app, cells_one, C1, C2. traces. split; [|consts; lia].
    rewrite upto_succ, flat_map_app by lia. cbn [flat_map app].
    now rewrite app_nil_r.
  - consts; lia.
  - consts; lia.
  - unfold P. repeat split.
  - rewrite E. cbn [bind ret]. exists ((tr ++ [Cmp_index]) ++ []).
    cbn [app] in C, I. split; [reflexivity|].
    rewrite cell_cmps_cells, !cells_app, cells_one, !app_nil_r, C. traces.
    split; [reflexivity|]. split; [reflexivity|]. consts. lia.
Qed.

Lemma find_crosses_cost_without_ones_witness :
  exists tr,
    find_crosses 17 sevens = Done [Indet; Int 0; Int 0] tr /\
    cells tr = row_major /\
    Z.of_nat (cell_cmps tr) = ROWS * COLS /\
    Z.of_nat (index_cmps tr) = ROWS * (COLS + 2) + 1.
Proof.
  apply (find_crosses_cost_without_ones 17 sevens).
  - split; [reflexivity|repeat constructor].
  - vm_compute. lia.
  - apply no_ones_by_scan.
    + split; [reflexivity|repeat constructor].
    + vm_compute. reflexivity.
Defined.

(** ** Mirrored grids *)

Lemma index_rev {A : Type} (l : list A) (n i : Z) :
  Z.of_nat (length l) = n -> index (rev l) (n - 1 - i) = index l i.
Proof.
  intros Hn. unfold index. rewrite nth_error_rev.
  destruct (Z.ltb_spec i 0) as [Hi|Hi].
  - destruct (Z.ltb_spec (n - 1 - i) 0); [reflexivity|].
    destruct (Nat.ltb_spec (Z.to_nat (n - 1 - i)) (length l)); [lia|reflexivity].
  - destruct (Z.ltb_spec (n - 1 - i) 0) as [Hj|Hj].
    + symmetry. apply nth_error_None. lia.
    + destruct (Nat.ltb_spec (Z.to_nat (n - 1 - i)) (length l)); [|lia].
      f_equal. lia.
Qed.

Lemma flip_rows_well_formed (g : grid) : well_formed g -> well_formed (flip_rows g).
Proof.
  intros [Hlen Hrows]. split; unfold flip_rows.
  - now rewrite length_rev.
  - now apply Forall_rev.
Qed.

Lemma flip_cols_well_formed (g : grid) : well_formed g -> well_formed (flip_cols g).
Proof.
  intros [Hlen Hrows]. split; unfold flip_cols.
  - now rewrite length_map.
  - rewrite Forall_map. eapply Forall_impl; [|exact Hrows].
    intros row Hrow. now rewrite length_rev.
Qed.

Lemma lookup_flip_rows (g : grid) (r c : Z) :
  well_formed g -> lookup (flip_rows g) (ROWS - 1 - r) c = lookup g r c.
Proof.
  intros [Hlen _]. unfold lookup, flip_rows.
  rewrite (index_rev g ROWS r); [reflexivity|]. rewrite Hlen. consts. lia.
Qed.

Lemma lookup_flip_cols (g : grid) (r c : Z) :
  well_formed g -> lookup (flip_cols g) r (COLS - 1 - c) = lookup g r c.
Proof.
  intros [_ Hrows]. unfold lookup, flip_cols. rewrite index_map.
  destruct (index g r) as [row|] eqn:Hrow; [|reflexivity]. cbn [option_map].
  apply index_rev. rewrite Forall_forall in Hrows. rewrite (Hrows row).
  - consts. lia.
  - unfold index in Hrow. destruct (r <? 0); [discriminate|].
    eapply nth_error_In; eauto.
Qed.

Lemma Cross_flip_rows (g : grid) (r c : Z) :
  well_formed g -> (Cross (flip_rows g) (ROWS - 1 - r) c <-> Cross g r c).
Proof.
  intros Hg. unfold Cross, arm_ok.
  rewrite (lookup_flip_rows g r c Hg).
  assert (Hup : forall i, lookup (flip_rows g) (ROWS - 1 - r - i) c = lookup g (r + i) c).
  { intros i. replace (ROWS - 1 - r - i) with (ROWS - 1 - (r + i)) by lia.
    now apply lookup_flip_rows. }
  assert (Hdown : forall i, lookup (flip_rows g) (ROWS - 1 - r + i) c = lookup g (r - i) c).
  { intros i. replace (ROWS - 1 - r + i) with (ROWS - 1 - (r - i)) by lia.
    now apply lookup_flip_rows. }
  assert (Hside : forall c', lookup (flip_rows g) (ROWS - 1 - r) c' = lookup g r c').
  { intros c'. now apply lookup_flip_rows. }
  split; intros [Hc Harms]; (split; [exact Hc|]); intros i Hi;
    specialize (Harms i Hi); rewrite ?Hup, ?Hdown, ?Hside in *;
    consts; intuition lia.
Qed.

Lemma Cross_flip_cols (g : grid) (r c : Z) :
  well_formed g -> (Cross (flip_cols g) r (COLS - 1 - c) <-> Cross g r c).
Proof.
  intros Hg. unfold Cross, arm_ok.
  rewrite (lookup_flip_cols g r c Hg).
  assert (Hleft : forall i, lookup (flip_cols g) r (COLS - 1 - c - i) = lookup g r (c + i)).
  { intros i. replace (COLS - 1 - c - i) with (COLS - 1 - (c + i)) by lia.
    now apply lookup_flip_cols. }
  assert (Hright : forall i, lookup (flip_cols g) r (COLS - 1 - c + i) = lookup g r (c - i)).
  { intros i. replace (COLS - 1 - c + i) with (COLS - 1 - (c - i)) by lia.
    now apply lookup_flip_cols. }
  assert (Hcol : forall r', lookup (flip_cols g) r' (COLS - 1 - c) = lookup g r' c).
  { intros r'. now apply lookup_flip_cols. }
  split; intros [Hc Harms]; (split; [exact Hc|]); intros i Hi;
    specialize (Harms i Hi); rewrite ?Hleft, ?Hright, ?Hcol in *;
    consts; intuition lia.
Qed.

Lemma is_cross_same_answer (fuel : nat) (g g' : grid) (r c r' c' : Z) :
  well_formed g -> well_formed g' -> in_bounds r c -> in_bounds r' c' ->
  (Z.to_nat ARM < fuel)%nat ->
  (Cross g r c <-> Cross g' r' c') ->
  forall v, returns (is_cross fuel g r c) v <-> returns (is_cross fuel g' r' c') v.
Proof.
  intros Hg Hg' Hin Hin' Hfuel Hiff v.
  destruct (is_cross_run fuel g r c Hg Hin Hfuel) as (v0 & tr0 & E0 & Hv0 & _).
  destruct (is_cross_run fuel g' r' c' Hg' Hin' Hfuel) as (v1 & tr1 & E1 & Hv1 & _).
  assert (v0 = v1) as <-.
  { destruct Hv0 as [[-> H0]|[-> H0]], Hv1 as [[-> H1]|[-> H1]];
      try reflexivity; tauto. }
  split; intros [tr E].
  - rewrite E0 in E. injection E as <- _. eexists; exact E1.
  - rewrite E1 in E. injection E as <- _. eexists; exact E0.
Qed.

(** The found-flag against the description's [Cross]. *)
Lemma found_flag_iff_cross (fuel : nat) (g : grid) :
  well_formed g -> (Z.to_nat COLS < fuel)%nat ->
  exists x y f,
    returns (find_crosses fuel g) [x; y; Int f] /\
    (f = 0 \/ f = 1) /\
    (f = 1 <-> exists r c, in_bounds r c /\ Cross g r c).
Proof.
  intros Hg Hfuel.
  destruct (find_crosses_run fuel g Hg Hfuel) as (s & tr & E & Hs & _).
  exists (current_r s), (Int (current_c s)), (found s).
  split; [exists tr; exact E|].
  destruct Hs as [[-> Hno]|(r0 & c0 & -> & [Hin0 _] & Hc0 & _)]; cbn [found entry].
  - split; [now left|]. split; [discriminate|].
    intros (r & c & Hin & Hc). exfalso. apply (Hno r c); [|exact Hc].
    split; [exact Hin|]. consts. lia.
  - split; [now right|]. split; [intros _; now exists r0, c0|reflexivity].
Qed.

Lemma same_found_flag (fuel : nat) (g g' : grid) :
  well_formed g -> well_formed g' -> (Z.to_nat COLS < fuel)%nat ->
  ((exists r c, in_bounds r c /\ Cross g r c) <->
   (exists r c, in_bounds r c /\ Cross g' r c)) ->
  exists x y x' y' f,
    returns (find_crosses fuel g) [x; y; Int f] /\
    returns (find_crosses fuel g') [x'; y'; Int f].
Proof.
  intros Hg Hg' Hfuel Hiff.
  destruct (found_flag_iff_cross fuel g Hg Hfuel) as (x & y & f & R & Hf & Hone).
  destruct (found_flag_iff_cross fuel g' Hg' Hfuel) as (x' & y' & f' & R' & Hf' & Hone').
  exists x, y, x', y', f. split; [exact R|].
  assert (f = f') as -> by (destruct Hf as [->| ->], Hf' as [->| ->]; tauto || (exfalso; intuition discriminate)).
  exact R'.
Qed.

(** X10: detection does not care whether the grid is upside down.  With the
    rows of the grid reversed, [is_cross] at the mirrored centre
    (ROWS - 1 - r, c) returns what it returns at (r, c) on the original grid,
    and [find_crosses] returns the same found-flag for both grids. *)
Theorem detection_survives_flip_rows (fuel : nat) (g : grid) (r c : Z) :
  well_formed g -> in_bounds r c -> (Z.to_nat COLS < fuel)%nat ->
  (forall v, returns (is_cross fuel (flip_rows g) (ROWS - 1 - r) c) v <->
             returns (is_cross fuel g r c) v) /\
  exists x y x' y' f,
    returns (find_crosses fuel g) [x; y; Int f] /\
    returns (find_crosses fuel (flip_rows g)) [x'; y'; Int f].
Proof.
  intros Hg Hin Hfuel.
  assert (Hfuel' : (Z.to_nat ARM < fuel)%nat) by (consts; lia).
  pose proof (flip_rows_well_formed g Hg) as Hg'.
  split.
  - apply is_cross_same_answer; try assumption; [consts; lia|].
    now apply Cross_flip_rows.
  - apply same_found_flag; try assumption. split.
    + intros (r0 & c0 & Hin0 & H0). exists (ROWS - 1 - r0), c0.
      split; [consts; lia|]. now apply Cross_flip_rows.
    + intros (r0 & c0 & Hin0 & H0). exists (ROWS - 1 - r0), c0.
      split; [consts; lia|]. apply (Cross_flip_rows g (ROWS - 1 - r0) c0 Hg).
      now replace (ROWS - 1 - (ROWS - 1 - r0)) with r0 by lia.
Qed.

Lemma detection_survives_flip_rows_witness :
  (forall v, returns (is_cross 17 (flip_rows two_crosses) (ROWS - 1 - 2) 12) v <->
             returns (is_cross 17 two_crosses 2 12) v) /\
  exists x y x' y' f,
    returns (find_crosses 17 two_crosses) [x; y; Int f] /\
    returns (find_crosses 17 (flip_rows two_crosses)) [x'; y'; Int f].
Proof.
  apply (detection_survives_flip_rows 17 two_crosses 2 12).
  - split; [reflexivity|repeat constructor].
  - unfold in_bounds, valid_row, valid_col, ROWS, COLS. lia.
  - vm_compute. lia.
Defined.

(** X11: nor does detection care whether the grid is mirrored left to right.
    With every row reversed, [is_cross] at the mirrored centre
    (r, COLS - 1 - c) returns what it returns at (r, c) on the original grid,
    and [find_crosses] returns the same found-flag for both grids. *)
Theorem detection_survives_flip_cols (fuel : nat) (g : grid) (r c : Z) :
  well_formed g -> in_bounds r c -> (Z.to_nat COLS < fuel)%nat ->
  (forall v, returns (is_cross fuel (flip_cols g) r (COLS - 1 - c)) v <->
             returns (is_cross fuel g r c) v) /\
  exists x y x' y' f,
    returns (find_crosses fuel g) [x; y; Int f] /\
    returns (find_crosses fuel (flip_cols g)) [x'; y'; Int f].
Proof.
  intros Hg Hin Hfuel.
  assert (Hfuel' : (Z.to_nat ARM < fuel)%nat) by (consts; lia).
  pose proof (flip_cols_well_formed g Hg) as Hg'.
  split.
  - apply is_cross_same_answer; try assumption; [consts; lia|].
    now apply Cross_flip_cols.
  - apply same_found_flag; try assumption. split.
    + intros (r0 & c0 & Hin0 & H0). exists r0, (COLS - 1 - c0).
      split; [consts; lia|]. now apply Cross_flip_cols.
    + intros (r0 & c0 & Hin0 & H0). exists r0, (COLS - 1 - c0).
      split; [consts; lia|]. apply (Cross_flip_cols g r0 (COLS - 1 - c0) Hg).
      now replace (COLS - 1 - (COLS - 1 - c0)) with c0 by lia.
Qed.

Lemma detection_survives_flip_cols_witness :
  (forall v, returns (is_cross 17 (flip_cols two_crosses) 2 (COLS - 1 - 12)) v <->
             returns (is_cross 17 two_crosses 2 12) v) /\
  exists x y x' y' f,
    returns (find_crosses 17 two_crosses) [x; y; Int f] /\
    returns (find_crosses 17 (flip_cols two_crosses)) [x'; y'; Int f].
Proof.
  apply (detection_survives_flip_cols 17 two_crosses 2 12).
  - split; [reflexivity|repeat constructor].
  - unfold in_bounds, valid_row, valid_col, ROWS, COLS. lia.
  - vm_compute. lia.
Defined.

(** ** Too few ones *)

Lemma probe_order_eq (r c : Z) :
  probe_order r c = [(r, c); (r - 1, c); (r + 1, c); (r, c - 1); (r, c + 1)].
Proof. reflexivity. Qed.

Lemma probe_order_NoDup (r c : Z) : NoDup (probe_order r c).
Proof.
  rewrite probe_order_eq.
  repeat (constructor;
          [cbn [In]; intros H;
           repeat (destruct H as [H'|H]; [injection H'; intros; lia|]);
           exact H|]).
  constructor.
Qed.

Lemma is_one_iff (g : grid) (p : Z * Z) :
  is_one g p = true <-> lookup g (fst p) (snd p) = Some 1.
Proof.
  unfold is_one. destruct (lookup g (fst p) (snd p)) as [[|[q|q|]|q]|];
    split; intros H; try discriminate; reflexivity.
Qed.

(** A cross brings 1 + 4 x ARM ones with it. *)
Lemma cross_needs_ones (g : grid) (r c : Z) :
  well_formed g -> Cross g r c -> 1 + 4 * ARM <= Z.of_nat (count_ones g).
Proof.
  intros Hg [Hc Harms].
  destruct (Harms 1) as ((_ & A) & (_ & B) & (_ & C) & (_ & D)); [consts; lia|].
  assert (Hincl : incl (probe_order r c) (filter (is_one g) row_major)).
  { intros [r' c'] Hin. rewrite probe_order_eq in Hin. apply filter_In.
    assert (H1 : lookup g r' c' = Some 1).
    { cbn [In] in Hin.
      repeat (destruct Hin as [[= <- <-]|Hin]; [assumption|]). destruct Hin. }
    split; [|now apply is_one_iff].
    apply in_row_major. eapply lookup_some_in_bounds; eauto. }
  apply (NoDup_incl_length (probe_order_NoDup r c)) in Hincl.
  unfold count_ones. rewrite probe_order_eq in Hincl. cbn [length] in Hincl.
  consts. lia.
Qed.

(** X12: fewer than 1 + 4 x ARM = 5 cells equal to 1 anywhere in the grid can
    never make a cross: [find_crosses] then returns the no-match result,
    found = 0. *)
Theorem find_crosses_needs_five_ones (fuel : nat) (g : grid) :
  well_formed g -> (Z.to_nat COLS < fuel)%nat ->
  Z.of_nat (count_ones g) < 1 + 4 * ARM ->
  returns (find_crosses fuel g) [Indet; Int 0; Int 0].
Proof.
  intros Hg Hfuel Hfew.
  destruct (find_crosses_run fuel g Hg Hfuel) as (s & tr & E & Hs & _).
  destruct Hs as [[-> _]|(r0 & c0 & -> & _ & Hc0 & _)].
  - exists tr. exact E.
  - pose proof (cross_needs_ones g r0 c0 Hg Hc0). lia.
Qed.

Lemma find_crosses_needs_five_ones_witness :
  returns (find_crosses 17 plus_without_centre) [Indet; Int 0; Int 0].
Proof.
  apply (find_crosses_needs_five_ones 17 plus_without_centre).
  - split; [reflexivity|repeat constructor].
  - vm_compute. lia.
  - vm_compute. reflexivity.
Defined.
